(** * Budgie: the spending tracker's ingestion and aggregation pipeline

    A shallow embedding of [app.py]: bank detection, the two normalizers,
    the upload loop, the payment-row filter, the category mapping and the
    aggregations of the two pages, with the properties of the design
    document proved (or refuted) about them.

    Modelling conventions.
    - A pandas [DataFrame] is a row count and an ordered list of labelled
      columns; labels may repeat (as they can after [rename]).
    - A cell is a number, a text, a timestamp or null (NaN, None and NaT
      are not told apart: [pd.isna] does not either).
    - Numbers are exact integers: the properties below are about signs,
      sums and selections, not about binary floating point.
    - Python exceptions are values of [exn]; a computation that may raise
      returns a [result].
    - What pandas parses out of a text ([pd.to_numeric], [pd.to_datetime])
      is a parameter of the development. *)

From Stdlib Require Import ZArith String Ascii List Lia Bool.
From stdpp Require Import base option list strings pretty gmap.

Local Open Scope string_scope.
Local Open Scope Z_scope.
Local Open Scope list_scope.

(** ** Cells, series, exceptions *)

Record Timestamp := mkTimestamp {
  year : Z; month : Z; day : Z;
  hour : Z; minute : Z; second : Z
}.

Inductive value :=
| VNum (z : Z)
| VStr (s : string)
| VTime (t : Timestamp)
| VNull.

#[global] Instance Timestamp_eq_dec : EqDecision Timestamp.
Proof. solve_decision. Defined.

#[global] Instance value_eq_dec : EqDecision value.
Proof. solve_decision. Defined.

Definition Series := list value.

Inductive exn :=
| ValueError (msg : string)
| KeyError (key : string)
| TypeError (msg : string)
| AttributeError (msg : string)
| InvalidIndexError (msg : string).

Inductive result (A : Type) :=
| Ok (a : A)
| Raise (e : exn).

Arguments Ok {A} a.
Arguments Raise {A} e.

#[global] Instance result_ret : MRet result := fun _ a => Ok a.
#[global] Instance result_bind : MBind result := fun _ _ f m =>
  match m with
  | Ok a => f a
  | Raise e => Raise e
  end.

(** ** Python strings *)

(** [p in s] for two strings: [p] occurs in [s] as a contiguous run. *)
Fixpoint is_substring (p s : string) : bool :=
  String.prefix p s ||
  match s with
  | EmptyString => false
  | String _ s' => is_substring p s'
  end.

(** [s.lower()], on ASCII letters; other characters are left as they
    are. *)
Definition lower_char (c : ascii) : ascii :=
  let n := nat_of_ascii c in
  if (65 <=? n)%nat && (n <=? 90)%nat then ascii_of_nat (n + 32) else c.

Fixpoint lower (s : string) : string :=
  match s with
  | EmptyString => EmptyString
  | String c s' => String (lower_char c) (lower s')
  end.

Definition dquote : string := String (ascii_of_nat 34) EmptyString.

(** [repr(s)]: single quotes, or double quotes when [s] holds a single
    quote (escapes are not modelled). *)
Definition py_repr (s : string) : string :=
  if is_substring "'" s then dquote +:+ s +:+ dquote
  else "'" +:+ s +:+ "'".

(** [str(e)] for a caught exception: the message, and for a [KeyError]
    the [repr] of the key. *)
Definition str_exn (e : exn) : string :=
  match e with
  | ValueError msg | TypeError msg | AttributeError msg
  | InvalidIndexError msg => msg
  | KeyError key => py_repr key
  end.

(** ** DataFrames *)

Record DataFrame := mkDataFrame {
  nrows : nat;
  cols : list (string * Series)
}.

(** [df.columns] *)
Definition columns (df : DataFrame) : list string := (cols df).*1.

(** What [df[name]] evaluates to when the label exists: one Series when the
    label is unique, a sub-frame when it is repeated. *)
Inductive selection :=
| Column (s : Series)
| Frame (cs : list Series).

(** What [df.get(name, default)] evaluates to. *)
Inductive pyobj :=
| Selected (sel : selection)
| Scalar (v : value).

Definition named (name : string) (df : DataFrame) : list Series :=
  (filter (fun c => c.1 = name) (cols df)).*2.

(** [df[name]] *)
Definition getitem (df : DataFrame) (name : string) : result selection :=
  match named name df with
  | [] => Raise (KeyError name)
  | [s] => Ok (Column s)
  | cs => Ok (Frame cs)
  end.

(** [df.get(name, default)] *)
Definition get (df : DataFrame) (name : string) (default : value) : pyobj :=
  match getitem df name with
  | Ok sel => Selected sel
  | Raise _ => Scalar default
  end.

(** [df[name] = s]: every column carrying the label is replaced; a new
    label is appended at the right. *)
Definition setitem (df : DataFrame) (name : string) (s : Series) : DataFrame :=
  if decide (name ∈ columns df)
  then mkDataFrame (nrows df)
         ((fun c => if decide (c.1 = name) then (name, s) else c) <$> cols df)
  else mkDataFrame (nrows df) (cols df ++ [(name, s)]).

(** [df[name] = v] with a scalar [v], broadcast over the rows. *)
Definition setitem_scalar (df : DataFrame) (name : string) (v : value)
  : DataFrame :=
  setitem df name (replicate (nrows df) v).

(** [df.rename(columns=mapping)] *)
Definition rename (mapping : gmap string string) (df : DataFrame)
  : DataFrame :=
  mkDataFrame (nrows df)
    ((fun c => (default c.1 (mapping !! c.1), c.2)) <$> cols df).

(** [df[[l1, ..., ln]]]: the columns carrying each requested label, in the
    order requested. *)
Fixpoint select (df : DataFrame) (labels : list string)
  : result (list (string * Series)) :=
  match labels with
  | [] => Ok []
  | l :: rest =>
      match named l df with
      | [] => Raise (KeyError ("['" +:+ l +:+ "'] not in index"))
      | cs => more ← select df rest; Ok (((fun s => (l, s)) <$> cs) ++ more)
      end
  end.

Definition getitems (df : DataFrame) (labels : list string)
  : result DataFrame :=
  cs ← select df labels; Ok (mkDataFrame (nrows df) cs).

(** [df[mask]] with a boolean mask: the rows where the mask holds. *)
Fixpoint keep {A} (mask : list bool) (s : list A) : list A :=
  match mask, s with
  | b :: mask', x :: s' => if b then x :: keep mask' s' else keep mask' s'
  | _, _ => []
  end.

Definition bool_index (df : DataFrame) (mask : list bool) : DataFrame :=
  mkDataFrame (length (keep mask (replicate (nrows df) ())))
    ((fun c => (c.1, keep mask c.2)) <$> cols df).

(** A frame as [read_csv] or a normalizer hands it over: every column has
    one cell per row. *)
Definition well_formed (df : DataFrame) : Prop :=
  Forall (fun c => length c.2 = nrows df) (cols df).

(** ** Series operations *)

Definition isna (v : value) : bool :=
  match v with VNull => true | _ => false end.

(** [s.fillna(v)] *)
Definition fillna (v : value) (s : Series) : Series :=
  (fun x => if isna x then v else x) <$> s.

(** [s * -1] *)
Definition negate (s : Series) : Series :=
  (fun x => match x with VNum z => VNum (- z) | _ => VNull end) <$> s.

(** [a - b], cell by cell; null when either side is. *)
Definition sub_value (x y : value) : value :=
  match x, y with
  | VNum a, VNum b => VNum (a - b)
  | _, _ => VNull
  end.

Definition sub_series (a b : Series) : Series := zip_with sub_value a b.

(** ** Static configuration *)

(** Bank column mappings: the old and the new Chase header sets, and the
    Capital One one. *)
Definition CHASE_MAPS : list (gmap string string) :=
  [ {[ "Trans Date" := "date"; "Description" := "description";
       "Category" := "category"; "Amount" := "amount" ]};
    {[ "Transaction Date" := "date"; "Description" := "description";
       "Category" := "category"; "Amount" := "amount" ]} ].

Definition CAPONE_MAP : gmap string string :=
  {[ "Transaction Date" := "date"; "Description" := "description";
     "Category" := "category"; "Debit" := "debit"; "Credit" := "credit" ]}.

Definition PAYMENT_PHRASES : list string :=
  [ "autopay pymt"; "payment thank you"; "automatic payment";
    "returned payment"; "reversal" ].

Definition CATEGORY_MAP : gmap string string :=
  list_to_map
    [ ("Groceries", "Groceries");
      ("Food & Drink", "Dining Out");
      ("Shopping", "Shopping");
      ("Merchandise", "Shopping");
      ("Personal", "Personal/Health");
      ("Health & Wellness", "Personal/Health");
      ("Education", "Personal/Health");
      ("Insurance", "Bills & Utilities");
      ("Internet", "Bills & Utilities");
      ("Gas", "Auto & Travel");
      ("Automotive", "Auto & Travel");
      ("Travel", "Auto & Travel") ].

(** ** Bank detection *)

Definition detect_bank (df : DataFrame) : string :=
  if decide ("Amount" ∈ columns df) then "chase"
  else if decide ("Debit" ∈ columns df) then "capone"
  else "unknown".

(** ** Normalizers *)

Section Normalizers.

(** What [pd.to_numeric] reads in a text cell ([None]: not a number,
    coerced to NaN), and what [pd.to_datetime] reads in a cell of a
    series ([None]: coerced to NaT). pandas may infer the date format
    from the whole series, hence the first argument. *)
Variable parse_number : string -> option Z.
Variable parse_date : Series -> value -> option Timestamp.

Definition to_numeric_elt (v : value) : value :=
  match v with
  | VNum z => VNum z
  | VStr s => from_option VNum VNull (parse_number s)
  | VTime _ | VNull => VNull
  end.

Definition to_datetime (s : Series) : Series :=
  (fun v => from_option VTime VNull (parse_date s v)) <$> s.

(** [pd.to_datetime(x, errors='coerce')] for [x = df[...]]: a sub-frame
    is read as year/month/day columns, which repeated labels defeat. *)
Definition pd_to_datetime (x : selection) : result Series :=
  match x with
  | Column s => Ok (to_datetime s)
  | Frame _ => Raise (ValueError "cannot assemble with duplicate keys")
  end.

(** What [pd.to_numeric] returns: a Series for a Series, the number
    itself for a scalar number. *)
Inductive numeric :=
| NumSeries (s : Series)
| NumScalar (v : value).

(** [pd.to_numeric(x, errors='coerce')] *)
Definition pd_to_numeric (x : pyobj) : result numeric :=
  match x with
  | Selected (Column s) => Ok (NumSeries (to_numeric_elt <$> s))
  | Selected (Frame _) =>
      Raise (TypeError "arg must be a list, tuple, 1-d array, or Series")
  | Scalar v => Ok (NumScalar (to_numeric_elt v))
  end.

(** [x * -1] *)
Definition times_minus_one (x : numeric) : Series :=
  match x with
  | NumSeries s => negate s
  | NumScalar v => negate [v]
  end.

(** [x.fillna(0)]: a Python number has no such method. *)
Definition fillna_zero (x : numeric) : result Series :=
  match x with
  | NumSeries s => Ok (fillna (VNum 0) s)
  | NumScalar _ =>
      Raise (AttributeError "'int' object has no attribute 'fillna'")
  end.

(** [all(col in df.columns for col in mapping.keys())] *)
Definition all_keys_in (mapping : gmap string string) (df : DataFrame)
  : bool :=
  bool_decide (map_Forall (fun col _ => col ∈ columns df) mapping).

(** The two lines shared by both normalizers:
    [for col in ['category', 'description']: if col not in df: df[col] = None] *)
Definition backfill (df : DataFrame) : DataFrame :=
  foldl (fun df col =>
           if decide (col ∈ columns df) then df
           else setitem_scalar df col VNull)
        df ["category"; "description"].

Definition canonical_columns : list string :=
  ["date"; "description"; "category"; "amount"; "account"].

(** The body of [normalize_chase] under one mapping that the frame
    satisfies. *)
Definition apply_chase_mapping (mapping : gmap string string)
    (df : DataFrame) : result DataFrame :=
  let df := rename mapping df in
  date ← getitem df "date" ≫= pd_to_datetime;
  let df := setitem df "date" date in
  amount ← getitem df "amount" ≫= (fun x => pd_to_numeric (Selected x));
  let df := setitem df "amount" (times_minus_one amount) in
  let df := setitem_scalar df "account" (VStr "Chase") in
  let df := backfill df in
  getitems df canonical_columns.

(** [for mapping in maps: if all(...): ...; return ...] and the [raise]
    after the loop. *)
Fixpoint try_chase_mappings (maps : list (gmap string string))
    (df : DataFrame) : result DataFrame :=
  match maps with
  | [] => Raise (ValueError "No valid Chase mapping found")
  | mapping :: rest =>
      if all_keys_in mapping df then apply_chase_mapping mapping df
      else try_chase_mappings rest df
  end.

Definition normalize_chase (df : DataFrame) : result DataFrame :=
  try_chase_mappings CHASE_MAPS df.

Definition normalize_capone (df : DataFrame) : result DataFrame :=
  let df := rename CAPONE_MAP df in
  date ← getitem df "date" ≫= pd_to_datetime;
  let df := setitem df "date" date in
  debit ← pd_to_numeric (get df "debit" (VNum 0)) ≫= fillna_zero;
  let df := setitem df "debit" debit in
  credit ← pd_to_numeric (get df "credit" (VNum 0)) ≫= fillna_zero;
  let df := setitem df "credit" credit in
  minuend ← getitem df "debit";
  subtrahend ← getitem df "credit";
  amount ← match minuend, subtrahend with
           | Column a, Column b => Ok (sub_series a b)
           | _, _ => Raise (ValueError "Cannot set a DataFrame with multiple columns")
           end;
  let df := setitem df "amount" amount in
  let df := setitem_scalar df "account" (VStr "Capital One") in
  let df := backfill df in
  getitems df canonical_columns.

Definition normalizers : gmap string (DataFrame -> result DataFrame) :=
  {[ "chase" := normalize_chase; "capone" := normalize_capone ]}.

End Normalizers.

(** ** Dates as text *)

Definition digit (n : Z) : ascii := ascii_of_nat (48 + Z.to_nat (n mod 10)).

Definition pad2 (n : Z) : string :=
  String (digit (n / 10)) (String (digit n) EmptyString).

Definition pad4 (n : Z) : string :=
  String (digit (n / 1000)) (String (digit (n / 100)) (pad2 n)).

(** [str(t.to_period('M'))]: "YYYY-MM" *)
Definition month_key (t : Timestamp) : string :=
  pad4 (year t) +:+ "-" +:+ pad2 (month t).

(** [str(t.date())]: "YYYY-MM-DD" *)
Definition day_key (t : Timestamp) : string :=
  month_key t +:+ "-" +:+ pad2 (day t).

(** [str(t)]: "YYYY-MM-DD HH:MM:SS" *)
Definition str_timestamp (t : Timestamp) : string :=
  day_key t +:+ " " +:+ pad2 (hour t) +:+ ":" +:+ pad2 (minute t)
            +:+ ":" +:+ pad2 (second t).

(** The timestamps pandas can hold (its nanosecond clock spans the years
    1677 to 2262). *)
Definition valid_timestamp (t : Timestamp) : Prop :=
  1677 <= year t <= 2262 /\ 1 <= month t <= 12 /\ 1 <= day t <= 31 /\
  0 <= hour t <= 23 /\ 0 <= minute t <= 59 /\ 0 <= second t <= 59.

(** Lexicographic chaining of comparisons: the first that is not [Eq]
    decides. *)
Definition lex (c d : comparison) : comparison :=
  match c with Eq => d | _ => c end.

Definition month_compare (a b : Timestamp) : comparison :=
  lex (year a ?= year b) (month a ?= month b).

Definition date_compare (a b : Timestamp) : comparison :=
  lex (month_compare a b) (day a ?= day b).

(** Chronological order, as the comparison of two Timestamps decides
    it. *)
Definition timestamp_compare (a b : Timestamp) : comparison :=
  lex (date_compare a b)
      (lex (hour a ?= hour b)
           (lex (minute a ?= minute b) (second a ?= second b))).

Definition timestamp_le (a b : Timestamp) : bool :=
  match timestamp_compare a b with Gt => false | _ => true end.

(** [str(v)] *)
Definition py_str (v : value) : string :=
  match v with
  | VNum z => pretty z
  | VStr s => s
  | VTime t => str_timestamp t
  | VNull => "nan"
  end.

(** ** The payment-row filter and the category mapping *)

Definition is_payment_row (description : value) : bool :=
  if isna description then false
  else
    let desc := lower (py_str description) in
    existsb (fun phrase => is_substring phrase desc) PAYMENT_PHRASES.

(** [s.map(d)] with a dict [d]: a cell that is no key of [d] becomes
    null. *)
Definition map_dict (d : gmap string string) (s : Series) : Series :=
  (fun v => match v with
            | VStr k => from_option VStr VNull (d !! k)
            | _ => VNull
            end) <$> s.

(** [norm_df['category'].map(CATEGORY_MAP).fillna('Other')] for one
    cell. *)
Definition grouped_category_of (category : value) : value :=
  match category with
  | VStr k => VStr (default "Other" (CATEGORY_MAP !! k))
  | _ => VStr "Other"
  end.

(** ** The upload loop *)

(** One uploaded file, after [pd.read_csv]. *)
Record upload := mkUpload {
  file_name : string;
  content : DataFrame
}.

(** The two things the loop accumulates: the normalized frames and the
    warnings shown to the user. *)
Record loop_state := mkLoopState {
  dfs : list DataFrame;
  warnings : list string
}.

(** [norm_df['grouped_category'] =
       norm_df['category'].map(CATEGORY_MAP).fillna('Other')];
    with a repeated 'category' label the left operand is a frame, whose
    [map] does not take a dict. *)
Definition add_grouped_category (norm_df : DataFrame) : result DataFrame :=
  category ← getitem norm_df "category";
  match category with
  | Column s =>
      Ok (setitem norm_df "grouped_category"
            (fillna (VStr "Other") (map_dict CATEGORY_MAP s)))
  | Frame _ => Raise (TypeError "the first argument must be callable")
  end.

(** [pd.concat(dfs, ignore_index=True)] of frames without repeated labels:
    the labels in order of first appearance, the rows of the frames one
    after the other, null where a frame lacks a label. Frames with repeated
    labels are refused. *)
Definition first_seen (labels : list string) : list string :=
  foldl (fun seen l => if decide (l ∈ seen) then seen else seen ++ [l])
        [] labels.

Definition column_or_nulls (name : string) (df : DataFrame) : Series :=
  match named name df with
  | s :: _ => s
  | [] => replicate (nrows df) VNull
  end.

Definition concat (frames : list DataFrame) : result DataFrame :=
  if decide (Forall (fun df => NoDup (columns df)) frames)
  then Ok (mkDataFrame
             (foldr (fun df n => (nrows df + n)%nat) 0%nat frames)
             ((fun l => (l, frames ≫= column_or_nulls l))
                <$> first_seen (frames ≫= columns)))
  else Raise (InvalidIndexError
                "Reindexing only valid with uniquely valued Index objects").

(** [mask = all_data['description'].apply(lambda x: not is_payment_row(x));
     all_data = all_data[mask]] *)
Definition payment_mask (description : Series) : list bool :=
  (fun x => negb (is_payment_row x)) <$> description.

Definition drop_payment_rows (all_data : DataFrame) : result DataFrame :=
  description ← getitem all_data "description";
  match description with
  | Column s => Ok (bool_index all_data (payment_mask s))
  | Frame _ =>
      Raise (ValueError "The truth value of a Series is ambiguous")
  end.

Section Pipeline.

Variable parse_number : string -> option Z.
Variable parse_date : Series -> value -> option Timestamp.

(** One turn of [for file in uploaded_files]. *)
Definition process_file (st : loop_state) (file : upload) : loop_state :=
  let df := content file in
  let bank := detect_bank df in
  match normalizers parse_number parse_date !! bank with
  | Some normalize =>
      match normalize df ≫= add_grouped_category with
      | Ok norm_df => mkLoopState (dfs st ++ [norm_df]) (warnings st)
      | Raise e =>
          mkLoopState (dfs st)
            (warnings st ++
               ["Error normalizing " +:+ file_name file +:+ ": "
                  +:+ str_exn e])
      end
  | None =>
      mkLoopState (dfs st)
        (warnings st ++ ["Unknown format for file: " +:+ file_name file])
  end.

(** What one file adds to the loop's state, whatever the state is. *)
Definition contribution (file : upload) : loop_state :=
  process_file (mkLoopState [] []) file.

Definition upload_loop (uploaded_files : list upload) : loop_state :=
  foldl process_file (mkLoopState [] []) uploaded_files.

(** The frame a file contributes when its bank is known and its
    normalization goes through. *)
Definition normalized_frame (file : upload) : option DataFrame :=
  match normalizers parse_number parse_date !! detect_bank (content file) with
  | Some normalize =>
      match normalize (content file) ≫= add_grouped_category with
      | Ok norm_df => Some norm_df
      | Raise _ => None
      end
  | None => None
  end.

(** [if dfs: all_data = pd.concat(...); ...]; with no frame [all_data]
    stays the empty [pd.DataFrame()]. An exception here is not caught. *)
Definition build_all_data (frames : list DataFrame) : result DataFrame :=
  match frames with
  | [] => Ok (mkDataFrame 0 [])
  | _ => concat frames ≫= drop_payment_rows
  end.

(** The canonical collection and the warnings of one run. *)
Definition ingest (uploaded_files : list upload)
  : result (DataFrame * list string) :=
  let st := upload_loop uploaded_files in
  all_data ← build_all_data (dfs st);
  Ok (all_data, warnings st).

End Pipeline.

(** ** Reading the canonical collection *)

(** [df[name]] where the label is there exactly once, as every label of
    the canonical collection is (see [ingest_columns]). *)
Definition col (df : DataFrame) (name : string) : Series :=
  match named name df with
  | s :: _ => s
  | [] => []
  end.

(** The labels of the canonical collection. *)
Definition collection_columns : list string :=
  ["date"; "description"; "category"; "amount"; "account";
   "grouped_category"].

(** A column of the frames the loop kept, one frame after the other. *)
Definition stacked (frames : list DataFrame) (name : string) : Series :=
  frames ≫= (fun df => col df name).

(** [s > 0] and [s < 0], cell by cell: a null compares false. *)
Definition gt0 (v : value) : bool :=
  match v with VNum z => 0 <? z | _ => false end.

Definition lt0 (v : value) : bool :=
  match v with VNum z => z <? 0 | _ => false end.

(** [s.sum()]: nulls are skipped, the empty sum is zero. *)
Definition num (v : value) : Z :=
  match v with VNum z => z | _ => 0 end.

Definition sum_series (s : Series) : Z := foldr (fun v acc => num v + acc) 0 s.

(** [s.dt.to_period('M').astype(str)] and [s.dt.date.astype(str)], cell by
    cell; NaT prints as "NaT". *)
Definition month_str (v : value) : value :=
  match v with VTime t => VStr (month_key t) | _ => VStr "NaT" end.

Definition date_str (v : value) : value :=
  match v with VTime t => VStr (day_key t) | _ => VStr "NaT" end.

(** [(s >= lo) & (s <= hi)], cell by cell: NaT compares false. *)
Definition in_range (lo hi : Timestamp) (v : value) : bool :=
  match v with
  | VTime t => timestamp_le lo t && timestamp_le t hi
  | _ => false
  end.

(** ** groupby(...)['amount'].sum() *)

Section GroupBy.

Context {K : Type} (cmp : K -> K -> comparison).

(** The groups are kept sorted by key, as pandas returns them. *)
Fixpoint add_to_group (k : K) (z : Z) (groups : list (K * Z))
  : list (K * Z) :=
  match groups with
  | [] => [(k, z)]
  | (k', z') :: rest =>
      match cmp k k' with
      | Lt => (k, z) :: groups
      | Eq => (k', z' + z) :: rest
      | Gt => (k', z') :: add_to_group k z rest
      end
  end.

(** Rows whose key is null ([None] here) belong to no group. *)
Definition groupby_sum (keys : list (option K)) (amounts : Series)
  : list (K * Z) :=
  foldl (fun groups row =>
           match row.1 with
           | Some k => add_to_group k (num row.2) groups
           | None => groups
           end)
        [] (zip keys amounts).

Fixpoint group_lookup (k : K) (groups : list (K * Z)) : option Z :=
  match groups with
  | [] => None
  | (k', z) :: rest =>
      match cmp k k' with Eq => Some z | _ => group_lookup k rest end
  end.

(** The groups are in strictly increasing key order. *)
Definition all_above (k : K) (groups : list (K * Z)) : Prop :=
  Forall (fun g => cmp k g.1 = Lt) groups.

Fixpoint increasing (groups : list (K * Z)) : Prop :=
  match groups with
  | [] => True
  | g :: rest => all_above g.1 rest /\ increasing rest
  end.

End GroupBy.

Definition text_key (v : value) : option string :=
  match v with VStr s => Some s | _ => None end.

Definition pair_key (p c : value) : option (string * string) :=
  match p, c with VStr a, VStr b => Some (a, b) | _, _ => None end.

Definition pair_compare (a b : string * string) : comparison :=
  lex (String.compare a.1 b.1) (String.compare a.2 b.2).

(** ** The Dashboard page *)

Record summary := mkSummary { spending : Z; income : Z; net : Z }.

(** [all_data['month'] = all_data['date'].dt.to_period('M').astype(str)] *)
Definition with_month (all_data : DataFrame) : DataFrame :=
  setitem all_data "month" (month_str <$> col all_data "date").

(** [month_df = all_data[all_data['month'] == selected_month]] *)
Definition month_df (all_data : DataFrame) (selected_month : string)
  : DataFrame :=
  let all_data := with_month all_data in
  bool_index all_data
    ((fun m => bool_decide (m = VStr selected_month)) <$> col all_data "month").

Definition monthly_summary (all_data : DataFrame) (selected_month : string)
  : summary :=
  let month_df := month_df all_data selected_month in
  let spending :=
    sum_series (col (bool_index month_df (gt0 <$> col month_df "amount"))
                    "amount") in
  let income :=
    - sum_series (col (bool_index month_df (lt0 <$> col month_df "amount"))
                      "amount") in
  mkSummary spending income (income - spending).

(** [cat_sum = month_df[month_df['amount'] > 0]
                 .groupby('grouped_category')['amount'].sum()] *)
Definition cat_sum (month_df : DataFrame) : list (string * Z) :=
  let positive := bool_index month_df (gt0 <$> col month_df "amount") in
  groupby_sum String.compare
    (text_key <$> col positive "grouped_category") (col positive "amount").

(** The table at the bottom of the Dashboard: the date-range (and
    category) filtered rows when there are rows at all, the untouched
    collection otherwise. *)
Definition filtered (all_data : DataFrame) (lo hi : Timestamp)
    (category : string) : DataFrame :=
  let in_dates :=
    bool_index all_data (in_range lo hi <$> col all_data "date") in
  if decide (category = "All") then in_dates
  else bool_index in_dates
         ((fun c => bool_decide (c = VStr category))
            <$> col in_dates "grouped_category").

Definition dashboard_table (all_data : DataFrame) (lo hi : Timestamp)
    (category : string) : DataFrame :=
  let all_data := with_month all_data in
  if decide (nrows all_data = 0%nat) then all_data
  else filtered all_data lo hi category.

(** ** The Spending Over Time page *)

Inductive granularity := Month | Day.

Definition period_of (g : granularity) (v : value) : value :=
  match g with Month => month_str v | Day => date_str v end.

(** [df_exp]: the spending rows inside the date range, with their
    period. *)
Definition df_exp (all_data : DataFrame) (lo hi : Timestamp)
    (g : granularity) : DataFrame :=
  let df_exp := bool_index all_data (gt0 <$> col all_data "amount") in
  let df_exp := bool_index df_exp (in_range lo hi <$> col df_exp "date") in
  setitem df_exp "period" (period_of g <$> col df_exp "date").

(** [grouped] and [totals] *)
Definition grouped (df_exp : DataFrame) : list (string * string * Z) :=
  groupby_sum pair_compare
    (zip_with pair_key (col df_exp "period") (col df_exp "grouped_category"))
    (col df_exp "amount").

Definition totals (df_exp : DataFrame) : list (string * Z) :=
  groupby_sum String.compare
    (text_key <$> col df_exp "period") (col df_exp "amount").

(** ** Two small parsers, to run the pipeline on concrete files

    They stand in for pandas on the inputs of the examples: a number is
    an optional minus sign and decimal digits, a date is "YYYY-MM-DD". *)

Definition digit_value (c : ascii) : option Z :=
  let n := nat_of_ascii c in
  if (48 <=? n)%nat && (n <=? 57)%nat then Some (Z.of_nat n - 48) else None.

Fixpoint digits_value (acc : Z) (s : string) : option Z :=
  match s with
  | EmptyString => Some acc
  | String c s' => d ← digit_value c; digits_value (10 * acc + d) s'
  end.

Definition natural (s : string) : option Z :=
  match s with
  | EmptyString => None
  | _ => digits_value 0 s
  end.

Definition simple_number (s : string) : option Z :=
  match s with
  | String "-" s' => Z.opp <$> natural s'
  | _ => natural s
  end.

Definition simple_date (_ : Series) (v : value) : option Timestamp :=
  match v with
  | VStr s =>
      if decide (String.length s = 10%nat) then
        if decide (String.substring 4 1 s = "-"
                   /\ String.substring 7 1 s = "-") then
          y ← natural (String.substring 0 4 s);
          m ← natural (String.substring 5 2 s);
          d ← natural (String.substring 8 2 s);
          if decide (1 <= m <= 12 /\ 1 <= d <= 31)
          then Some (mkTimestamp y m d 0 0 0) else None
        else None
      else None
  | _ => None
  end.

(** Three uploads to run the pipeline on: a Chase export in the old
    header set, a Capital One export, and a file with an "Amount" column
    and nothing else a Chase mapping asks for. *)
Definition chase_csv : DataFrame :=
  mkDataFrame 4
    [ ("Trans Date", [VStr "2024-01-05"; VStr "2024-01-07";
                      VStr "2024-01-20"; VStr "sometime"]);
      ("Description", [VStr "KROGER #12"; VStr "AUTOPAY PYMT";
                       VStr "LOCAL DINER"; VStr "PARKING"]);
      ("Category", [VStr "Groceries"; VNull;
                    VStr "Food & Drink"; VStr "Travel"]);
      ("Amount", [VNum (-50); VNum 400; VNum (-30); VStr "n/a"]) ].

Definition capone_csv : DataFrame :=
  mkDataFrame 2
    [ ("Transaction Date", [VStr "2024-01-31"; VStr "2024-02-02"]);
      ("Description", [VStr "PAYROLL"; VStr "SHELL OIL"]);
      ("Category", [VStr "Income"; VStr "Gas"]);
      ("Debit", [VNull; VNum 45]);
      ("Credit", [VNum 1000; VStr ""]) ].

Definition amount_only_csv : DataFrame :=
  mkDataFrame 1 [ ("Amount", [VNum 12]) ].

(** A Capital One export that has the Debit column and no Credit
    column. *)
Definition capone_debit_only_csv : DataFrame :=
  mkDataFrame 1
    [ ("Transaction Date", [VStr "2024-03-01"]);
      ("Description", [VStr "HARDWARE STORE"]);
      ("Category", [VStr "Merchandise"]);
      ("Debit", [VNum 25]) ].

Definition example_files : list upload :=
  [ mkUpload "chase.csv" chase_csv;
    mkUpload "other.csv" amount_only_csv;
    mkUpload "capone.csv" capone_csv ].

(** ** What the specification's words mean *)

(** The fixed priority table of header signatures that [detect_bank]
    walks: a tag and the headers it requires. *)
Definition signatures : list (string * list string) :=
  [ ("chase", ["Amount"]); ("capone", ["Debit"]) ].

Fixpoint first_match (sigs : list (string * list string))
    (headers : list string) : string :=
  match sigs with
  | [] => "unknown"
  | (tag, required) :: rest =>
      if bool_decide (Forall (fun h => h ∈ headers) required) then tag
      else first_match rest headers
  end.

(** The headers a column mapping asks for that a frame lacks. *)
Definition missing_columns (mapping : gmap string string) (df : DataFrame)
  : list string :=
  filter (fun header => header ∉ columns df) (map_to_list mapping).*1.

(** The amounts of the rows of a collection whose month is the selected
    one. *)
Definition period_amounts (all_data : DataFrame) (selected_month : string)
  : Series :=
  keep ((fun d => bool_decide (month_str d = VStr selected_month))
          <$> col all_data "date")
       (col all_data "amount").

(** What a group of [groupby(...).sum()] should hold for key [k]: nothing
    when no row carries the key, the sum of the amounts of the rows that
    carry it otherwise. *)
Definition sum_if_any (amounts : Series) : option Z :=
  match amounts with
  | [] => None
  | _ => Some (sum_series amounts)
  end.

Definition group_total {K} `{EqDecision K} (k : K)
    (keys : list (option K)) (amounts : Series) : option Z :=
  sum_if_any (filter (fun row => row.1 = Some k) (zip keys amounts)).*2.

(** The cells of the rows of a frame that are spending (a strictly
    positive amount) in one grouped category. *)
Definition spending_in (df : DataFrame) (category : string)
  : list (value * value) :=
  filter (fun row => row.1 = VStr category /\ gt0 row.2 = true)
         (zip (col df "grouped_category") (col df "amount")).

(** The rows of a collection that are spending inside a date range, as
    (date, (grouped category, amount)). *)
Definition spending_in_range (all_data : DataFrame) (lo hi : Timestamp)
  : list (value * (value * value)) :=
  filter (fun row => in_range lo hi row.1 = true /\ gt0 row.2.2 = true)
         (zip (col all_data "date")
              (zip (col all_data "grouped_category")
                   (col all_data "amount"))).

(** The key a timestamp gets under a granularity. *)
Definition period_key (g : granularity) (t : Timestamp) : string :=
  match g with Month => month_key t | Day => day_key t end.

(** An amount with a sign: a number that is not zero. The collection
    without the rows whose amount has none (null or zero). *)
Definition has_sign (v : value) : bool := gt0 v || lt0 v.

Definition signed_rows (all_data : DataFrame) : DataFrame :=
  bool_index all_data (has_sign <$> col all_data "amount").

(** [s] contains [p] as a substring. *)
Definition contains (s p : string) : Prop :=
  exists before after, s = before +:+ p +:+ after.

(** Two characters that differ at most in letter case (A-Z against a-z),
    and two strings that do so position by position. *)
Definition same_letter (a b : ascii) : Prop :=
  a = b \/
  ((65 <= nat_of_ascii a <= 90)%nat /\
   nat_of_ascii b = (nat_of_ascii a + 32)%nat) \/
  ((65 <= nat_of_ascii b <= 90)%nat /\
   nat_of_ascii a = (nat_of_ascii b + 32)%nat).

Fixpoint differs_only_in_case (s t : string) : Prop :=
  match s, t with
  | EmptyString, EmptyString => True
  | String a s', String b t' => same_letter a b /\ differs_only_in_case s' t'
  | _, _ => False
  end.

(** The numbers of a series, nulls left out. *)
Definition numbers (s : Series) : list Z :=
  omap (fun v => match v with VNum z => Some z | _ => None end) s.

Definition total (zs : list Z) : Z := foldr Z.add 0 zs.

(** * Properties *)

(** ** Frames *)

Lemma keep_fmap {A B} (f : A -> B) mask (s : list A) :
  keep mask (f <$> s) = f <$> keep mask s.
Proof.
  revert s; induction mask as [|b mask IH]; intros [|x s]; simpl; try done.
  destruct b; simpl; by rewrite IH.
Qed.

Lemma keep_nil {A} mask : keep mask (@nil A) = [].
Proof. by destruct mask. Qed.

Lemma keep_zip {A B} mask (a : list A) (b : list B) :
  keep mask (zip a b) = zip (keep mask a) (keep mask b).
Proof.
  revert a b; induction mask as [|m mask IH]; intros [|x a] [|y b];
    simpl; try done.
  - destruct m; simpl; [done|]. by destruct (keep mask a).
  - destruct m; simpl; by rewrite IH.
Qed.

Lemma keep_zip_with {A B C} (f : A -> B -> C) mask a b :
  keep mask (zip_with f a b) = zip_with f (keep mask a) (keep mask b).
Proof.
  revert a b; induction mask as [|m mask IH]; intros [|x a] [|y b];
    simpl; try done.
  - destruct m; simpl; [done|]. by destruct (keep mask a).
  - destruct m; simpl; by rewrite IH.
Qed.

Lemma Forall_keep {A} (P : A -> Prop) mask s :
  Forall P s -> Forall P (keep mask s).
Proof.
  intros H; revert mask; induction H as [|x s Hx Hs IH]; intros [|b mask];
    simpl; try done.
  destruct b; [constructor|]; auto.
Qed.

Lemma named_bool_index name df mask :
  named name (bool_index df mask) = keep mask <$> named name df.
Proof.
  unfold named, bool_index; simpl.
  induction (cols df) as [|[l s] cs IH]; [done|].
  rewrite fmap_cons, !filter_cons; simpl.
  destruct (decide (l = name)); [rewrite !fmap_cons; simpl; f_equal|]; apply IH.
Qed.

Lemma col_bool_index df mask name :
  col (bool_index df mask) name = keep mask (col df name).
Proof.
  unfold col. rewrite named_bool_index.
  destruct (named name df); simpl; [by rewrite keep_nil|done].
Qed.

Lemma named_nil_iff name df : named name df = [] <-> name ∉ columns df.
Proof.
  unfold named, columns.
  induction (cols df) as [|[l s] cs IH].
  - split; [intros _; apply not_elem_of_nil|done].
  - rewrite filter_cons, fmap_cons, not_elem_of_cons; simpl.
    destruct (decide (l = name)) as [->|Hne].
    + rewrite fmap_cons. split; [done|intros [? _]; done].
    + rewrite IH. split; [intros H; split; [congruence|done]|by intros [_ H]].
Qed.

Lemma col_setitem_eq df name s : col (setitem df name s) name = s.
Proof.
  unfold setitem, col, named.
  destruct (decide (name ∈ columns df)) as [Hin|Hout]; simpl.
  - unfold columns in Hin.
    induction (cols df) as [|[l x] cs IH]; [by apply elem_of_nil in Hin|].
    rewrite fmap_cons in *. rewrite filter_cons; simpl in *.
    destruct (decide (l = name)) as [->|Hne]; simpl.
    + by rewrite decide_True.
    + rewrite decide_False by done. apply IH.
      apply elem_of_cons in Hin as [?|?]; [congruence|done].
  - apply named_nil_iff in Hout. unfold named in Hout.
    rewrite filter_app, fmap_app, Hout.
    rewrite filter_cons; simpl. by rewrite decide_True.
Qed.

Lemma named_setitem_ne df name s other :
  other <> name -> named other (setitem df name s) = named other df.
Proof.
  intros Hne. unfold setitem, named.
  destruct (decide (name ∈ columns df)); simpl.
  - induction (cols df) as [|[l x] cs IH]; [done|].
    rewrite fmap_cons, !filter_cons; simpl.
    destruct (decide (l = name)) as [->|Hl]; simpl.
    + rewrite !decide_False by done. apply IH.
    + destruct (decide (l = other)); rewrite ?fmap_cons; by rewrite IH.
  - rewrite filter_app, fmap_app. rewrite filter_cons; simpl.
    rewrite decide_False by done. by rewrite filter_nil, app_nil_r.
Qed.

Lemma col_setitem_ne df name s other :
  other <> name -> col (setitem df name s) other = col df other.
Proof. intros H. unfold col. by rewrite named_setitem_ne. Qed.

(** ** Bank detection *)

(** C6. Detection is a total function of the header set: it is the first
    match in the fixed priority table (Chase before Capital One), its
    value is one of the three tags, it is "unknown" exactly when no
    signature has its headers present, and two frames with the same header
    set get the same tag. *)
Theorem detect_bank_total_deterministic (df df' : DataFrame) :
  (forall c, c ∈ columns df <-> c ∈ columns df') ->
  detect_bank df = first_match signatures (columns df) /\
  detect_bank df ∈ ["chase"; "capone"; "unknown"] /\
  (detect_bank df = "unknown" <->
   Forall (fun sig => ~ Forall (fun h => h ∈ columns df) sig.2) signatures) /\
  detect_bank df' = detect_bank df.
Proof.
  intros Hsame.
  assert (detect_bank df' = detect_bank df) as Hdet.
  { unfold detect_bank.
    destruct (decide ("Amount" ∈ columns df')) as [H1|H1];
      rewrite <- Hsame in H1;
      destruct (decide ("Amount" ∈ columns df)) as [H2|H2]; try done;
      destruct (decide ("Debit" ∈ columns df')) as [H3|H3];
      rewrite <- Hsame in H3;
      destruct (decide ("Debit" ∈ columns df)) as [H4|H4]; done. }
  split_and!; [| | |exact Hdet]; clear Hdet Hsame df';
    unfold detect_bank, first_match, signatures.
  - destruct (decide ("Amount" ∈ columns df)) as [Ha|Ha].
    + by rewrite bool_decide_eq_true_2 by (repeat constructor; done).
    + rewrite bool_decide_eq_false_2
        by (intros H; apply Forall_cons in H as [? _]; done).
      destruct (decide ("Debit" ∈ columns df)) as [Hd|Hd].
      * by rewrite bool_decide_eq_true_2 by (repeat constructor; done).
      * by rewrite bool_decide_eq_false_2
          by (intros H; apply Forall_cons in H as [? _]; done).
  - repeat case_decide; rewrite !elem_of_cons; auto.
  - destruct (decide ("Amount" ∈ columns df)) as [Ha|Ha];
      [|destruct (decide ("Debit" ∈ columns df)) as [Hd|Hd]].
    + split; [done|]. intros H. apply Forall_cons in H as [H _].
      destruct H. by repeat constructor.
    + split; [done|]. intros H. apply Forall_cons in H as [_ H].
      apply Forall_cons in H as [H _]. destruct H. by repeat constructor.
    + split; [|done]. intros _.
      repeat constructor; simpl; intros H;
        apply Forall_cons in H as [? _]; done.
Qed.

Lemma detect_bank_total_deterministic_witness :
  detect_bank (mkDataFrame 0 [("Debit", []); ("Amount", []); ("Amount", [])])
  = detect_bank (mkDataFrame 0 [("Amount", []); ("Debit", [])]).
Proof.
  apply (detect_bank_total_deterministic
           (mkDataFrame 0 [("Amount", []); ("Debit", [])])
           (mkDataFrame 0 [("Debit", []); ("Amount", []); ("Amount", [])])).
  intros c. unfold columns; simpl. rewrite !elem_of_cons. tauto.
Defined.

(** ** The upload loop, file by file *)

Section PipelineProperties.

Variable parse_number : string -> option Z.
Variable parse_date : Series -> value -> option Timestamp.

#[local] Abbreviation process := (process_file parse_number parse_date).
#[local] Abbreviation run_loop := (upload_loop parse_number parse_date).
#[local] Abbreviation run := (ingest parse_number parse_date).
#[local] Abbreviation normalizer_of := (normalizers parse_number parse_date).
#[local] Abbreviation contribution_of := (contribution parse_number parse_date).
#[local] Abbreviation frame_of := (normalized_frame parse_number parse_date).


Lemma process_contribution st file :
  process st file =
  mkLoopState (dfs st ++ dfs (contribution_of file))
              (warnings st ++ warnings (contribution_of file)).
Proof.
  unfold contribution, process_file.
  destruct (normalizer_of !! _) as [normalize|]; simpl.
  - destruct (normalize _ ≫= add_grouped_category); simpl;
      by rewrite ?app_nil_r.
  - by rewrite app_nil_r.
Qed.

Lemma foldl_process_file st files :
  foldl process st files =
  mkLoopState (dfs st ++ dfs (run_loop files))
              (warnings st ++ warnings (run_loop files)).
Proof.
  unfold upload_loop.
  revert st. induction files as [|file files IH]; intros st.
  - simpl. destruct st; simpl. by rewrite !app_nil_r.
  - simpl. rewrite (IH (process st file)), (IH (process _ file)).
    rewrite (process_contribution st file); simpl.
    by rewrite !app_assoc.
Qed.

Lemma upload_loop_app files1 files2 :
  run_loop (files1 ++ files2) =
  mkLoopState (dfs (run_loop files1) ++ dfs (run_loop files2))
              (warnings (run_loop files1)
                 ++ warnings (run_loop files2)).
Proof.
  unfold upload_loop at 1.
  rewrite foldl_app. apply foldl_process_file.
Qed.

Lemma upload_loop_cons file files :
  run_loop (file :: files) =
  mkLoopState (dfs (contribution_of file) ++ dfs (run_loop files))
              (warnings (contribution_of file)
                 ++ warnings (run_loop files)).
Proof.
  change (file :: files) with ([file] ++ files).
  by rewrite upload_loop_app.
Qed.

(** Every frame the loop keeps is a normalizer's output with its
    grouped category added. *)
Lemma upload_loop_frames files df :
  df ∈ dfs (run_loop files) ->
  exists file normalize norm_df,
    file ∈ files /\
    normalizer_of !! detect_bank (content file) = Some normalize /\
    normalize (content file) = Ok norm_df /\
    add_grouped_category norm_df = Ok df.
Proof.
  induction files as [|file files IH].
  - intros H. by apply elem_of_nil in H.
  - rewrite upload_loop_cons; simpl. rewrite elem_of_app.
    intros [H|H].
    + exists file. unfold contribution, process_file in H.
      destruct (normalizer_of !! _) as [normalize|] eqn:Hn; simpl in H;
        [|by apply elem_of_nil in H].
      destruct (normalize (content file)) as [norm_df|e] eqn:Hnorm;
        simpl in H; [|by apply elem_of_nil in H].
      destruct (add_grouped_category norm_df) as [out|e] eqn:Hadd;
        simpl in H; [|by apply elem_of_nil in H].
      apply list_elem_of_singleton in H as ->.
      exists normalize, norm_df. split_and!; try done. apply elem_of_cons; by left.
    + destruct (IH H) as (f & n & d & Hf & ?).
      exists f, n, d. split; [apply elem_of_cons; by right|done].
Qed.

Lemma fillna_map_dict s :
  fillna (VStr "Other") (map_dict CATEGORY_MAP s) = grouped_category_of <$> s.
Proof.
  unfold fillna, map_dict. rewrite <- list_fmap_compose.
  apply list_fmap_ext. intros _ [z|k|t|] _; simpl; try done.
  by destruct (CATEGORY_MAP !! k).
Qed.

Lemma getitem_Column df name s :
  getitem df name = Ok (Column s) -> named name df = [s] /\ col df name = s.
Proof.
  unfold getitem, col. destruct (named name df) as [|x [|y l]]; try done.
  by intros [= ->].
Qed.

Lemma add_grouped_category_Ok norm_df out :
  add_grouped_category norm_df = Ok out ->
  exists s, getitem norm_df "category" = Ok (Column s) /\
            out = setitem norm_df "grouped_category"
                    (grouped_category_of <$> s).
Proof.
  unfold add_grouped_category.
  destruct (getitem norm_df "category") as [[s|cs]|e]; simpl; try done.
  intros [= <-]. exists s. by rewrite fillna_map_dict.
Qed.

Lemma drop_payment_rows_Ok all_data out :
  drop_payment_rows all_data = Ok out ->
  exists s, getitem all_data "description" = Ok (Column s) /\
            out = bool_index all_data (payment_mask s).
Proof.
  unfold drop_payment_rows.
  destruct (getitem all_data "description") as [[s|cs]|e]; simpl; try done.
  intros [= <-]. by exists s.
Qed.

Lemma elem_of_first_seen l labels : l ∈ first_seen labels <-> l ∈ labels.
Proof.
  unfold first_seen.
  assert (forall seen, l ∈ foldl (fun seen l =>
            if decide (l ∈ seen) then seen else seen ++ [l]) seen labels
          <-> l ∈ seen \/ l ∈ labels) as H.
  { induction labels as [|x labels IH]; intros seen; simpl.
    - split; [by left|]. intros [?|H]; [done|by apply elem_of_nil in H].
    - rewrite IH, elem_of_cons. destruct (decide (x ∈ seen)) as [Hx|Hx].
      + split; [intros [?|?]; auto|]. intros [?|[->|?]]; auto.
      + rewrite elem_of_app, list_elem_of_singleton. tauto. }
  rewrite H. split; [|by right]. intros [H'|?]; [|done].
  by apply elem_of_nil in H'.
Qed.

Lemma col_tabulate n (F : string -> Series) labels name :
  col (mkDataFrame n ((fun l => (l, F l)) <$> labels)) name =
  if decide (name ∈ labels) then F name else [].
Proof.
  unfold col, named; simpl.
  induction labels as [|l labels IH]; [done|].
  rewrite fmap_cons, filter_cons; simpl.
  destruct (decide (l = name)) as [->|Hne].
  - rewrite fmap_cons; simpl. rewrite decide_True; [done|].
    apply elem_of_cons; by left.
  - rewrite IH. destruct (decide (name ∈ labels)) as [Hin|Hout].
    + rewrite decide_True; [done|]. apply elem_of_cons; by right.
    + rewrite decide_False; [done|].
      rewrite elem_of_cons. intros [?|?]; congruence.
Qed.

Lemma column_or_nulls_col name df :
  name ∈ columns df -> column_or_nulls name df = col df name.
Proof.
  intros Hin. unfold column_or_nulls, col.
  destruct (named name df) eqn:Hn; [|done].
  by apply named_nil_iff in Hn.
Qed.

Lemma concat_Ok frames all_data :
  concat frames = Ok all_data ->
  Forall (fun df => NoDup (columns df)) frames /\
  forall name,
    col all_data name =
    if decide (name ∈ frames ≫= columns)
    then frames ≫= column_or_nulls name else [].
Proof.
  unfold concat. destruct (decide _) as [Hnd|]; [|done].
  intros [= <-]. split; [done|]. intros name.
  rewrite col_tabulate.
  destruct (decide (name ∈ first_seen _)) as [H|H];
    rewrite elem_of_first_seen in H.
  - by rewrite decide_True.
  - by rewrite decide_False.
Qed.

Lemma build_all_data_Ok frames all_data :
  build_all_data frames = Ok all_data ->
  (frames = [] /\ all_data = mkDataFrame 0 []) \/
  (frames <> [] /\ exists whole,
      concat frames = Ok whole /\ drop_payment_rows whole = Ok all_data).
Proof.
  destruct frames as [|df frames]; simpl.
  - intros [= <-]. by left.
  - intros H. right. split; [done|].
    destruct (concat (df :: frames)) as [whole|e]; [|done].
    by exists whole.
Qed.

(** ** Assignment and selection, label by label *)

Lemma nrows_setitem df name s : nrows (setitem df name s) = nrows df.
Proof. unfold setitem. by destruct (decide _). Qed.

Lemma columns_setitem df name s :
  columns (setitem df name s) =
  if decide (name ∈ columns df) then columns df else columns df ++ [name].
Proof.
  unfold setitem, columns. destruct (decide _) as [Hin|Hout]; simpl.
  - clear Hin. induction (cols df) as [|[l x] cs IH]; [done|].
    rewrite !fmap_cons, IH; simpl. by destruct (decide (l = name)) as [->|].
  - by rewrite fmap_app.
Qed.

Lemma elem_of_columns_setitem df name s l :
  l ∈ columns (setitem df name s) <-> l = name \/ l ∈ columns df.
Proof.
  rewrite columns_setitem. destruct (decide _) as [Hin|Hout].
  - split; [by right|]. by intros [->|?].
  - rewrite elem_of_app, list_elem_of_singleton. tauto.
Qed.

Lemma named_setitem_eq df name s :
  named name (setitem df name s) =
  if decide (name ∈ columns df) then (fun _ => s) <$> named name df else [s].
Proof.
  unfold setitem. destruct (decide _) as [Hin|Hout].
  - unfold named; simpl. clear Hin.
    induction (cols df) as [|[l x] cs IH]; [done|].
    rewrite fmap_cons, !filter_cons; simpl.
    destruct (decide (l = name)) as [->|Hne]; simpl.
    + rewrite decide_True by done. rewrite !fmap_cons. by rewrite IH.
    + by rewrite decide_False.
  - pose proof Hout as Hnil. apply named_nil_iff in Hnil.
    unfold named in *; simpl.
    rewrite filter_app, fmap_app, Hnil, filter_cons; simpl.
    by rewrite decide_True.
Qed.

Lemma named_setitem df name s l :
  named l (setitem df name s) =
  if decide (l = name)
  then (if decide (name ∈ columns df)
        then (fun _ => s) <$> named name df else [s])
  else named l df.
Proof.
  destruct (decide (l = name)) as [->|Hne].
  - apply named_setitem_eq.
  - by apply named_setitem_ne.
Qed.

Lemma getitem_setitem_ne df name s other :
  other <> name -> getitem (setitem df name s) other = getitem df other.
Proof. intros H. unfold getitem. by rewrite named_setitem_ne. Qed.

Lemma getitem_elem_of df name sel :
  getitem df name = Ok sel -> name ∈ columns df.
Proof.
  unfold getitem. intros H.
  destruct (decide (name ∈ columns df)) as [|Hout]; [done|].
  apply named_nil_iff in Hout. by rewrite Hout in H.
Qed.

Lemma select_Ok df labels cs :
  select df labels = Ok cs ->
  (forall l, l ∈ labels -> l ∈ columns df) /\
  cs = labels ≫= (fun l => (fun s => (l, s)) <$> named l df).
Proof.
  revert cs. induction labels as [|l labels IH]; intros cs; simpl.
  - intros [= <-]. split; [|done]. intros l H. by apply elem_of_nil in H.
  - destruct (named l df) as [|s ss] eqn:Hn; [done|].
    destruct (select df labels) as [more|e]; [|done]. simpl.
    intros [= <-]. destruct (IH more eq_refl) as [Hin ->].
    split; [|done].
    intros l' [->|H]%elem_of_cons; [|by apply Hin].
    destruct (decide (l ∈ columns df)) as [|Hout]; [done|].
    apply named_nil_iff in Hout. congruence.
Qed.

Lemma filter_label_tagged (l l' : string) (ss : list Series) :
  (filter (fun c : string * Series => c.1 = l) ((fun s => (l', s)) <$> ss)).*2
  = if decide (l' = l) then ss else [].
Proof.
  induction ss as [|s ss IH]; [by destruct (decide _)|].
  rewrite fmap_cons, filter_cons; simpl.
  destruct (decide (l' = l)); [rewrite fmap_cons; simpl|]; by rewrite IH.
Qed.

Lemma getitems_Ok df labels out :
  NoDup labels ->
  getitems df labels = Ok out ->
  nrows out = nrows df /\
  (forall l, l ∈ labels -> l ∈ columns df) /\
  forall l, named l out = if decide (l ∈ labels) then named l df else [].
Proof.
  unfold getitems. intros Hnd H.
  destruct (select df labels) as [cs|e] eqn:Hsel; [|done].
  simpl in H. injection H as <-.
  apply select_Ok in Hsel as [Hin ->].
  split_and!; [done|done|]. intros l. unfold named at 1; simpl.
  clear Hin. induction Hnd as [|l' labels Hout Hnd IH].
  - by rewrite decide_False by apply not_elem_of_nil.
  - rewrite bind_cons, filter_app, fmap_app, filter_label_tagged, IH.
    destruct (decide (l' = l)) as [->|Hne].
    + rewrite decide_False by done.
      rewrite decide_True by (apply elem_of_cons; by left).
      by rewrite app_nil_r.
    + simpl. destruct (decide (l ∈ labels)) as [Hl|Hl].
      * by rewrite decide_True by (apply elem_of_cons; by right).
      * rewrite decide_False; [done|].
        rewrite elem_of_cons. intros [?|?]; congruence.
Qed.

Lemma nrows_rename mapping df : nrows (rename mapping df) = nrows df.
Proof. done. Qed.

Lemma elem_of_columns_rename mapping df r l :
  mapping !! r = Some l -> r ∈ columns df -> l ∈ columns (rename mapping df).
Proof.
  intros Hm. unfold columns, rename; simpl.
  induction (cols df) as [|[x s] cs IH]; [by intros ?%elem_of_nil|].
  rewrite !fmap_cons, !elem_of_cons; simpl.
  intros [->|H]; [left; by rewrite Hm|right; auto].
Qed.

(** When the renamed frame has exactly one column under a canonical
    label, it is the column of the source header mapped to it. *)
Lemma named_rename_unique mapping df r l a :
  mapping !! r = Some l -> r ∈ columns df ->
  named l (rename mapping df) = [a] -> named r df = [a].
Proof.
  intros Hm. destruct df as [n cs]. unfold named, columns; simpl.
  induction cs as [|[x s] cs IH]; [by intros H%elem_of_nil|].
  rewrite !fmap_cons, !filter_cons, elem_of_cons; simpl.
  intros Hin. destruct (decide (x = r)) as [->|Hne].
  - rewrite Hm; simpl. rewrite decide_True by done.
    rewrite !fmap_cons; simpl. intros [= -> Hrest]. f_equal.
    destruct (decide (r ∈ cs.*1)) as [Hr|Hr].
    + apply (elem_of_columns_rename mapping (mkDataFrame n cs) r l Hm) in Hr.
      apply (named_nil_iff l (rename mapping (mkDataFrame n cs))) in Hrest.
      done.
    + by apply (named_nil_iff r (mkDataFrame n cs)) in Hr.
  - destruct Hin as [?|Hin]; [congruence|].
    destruct (decide (default x (mapping !! x) = l)).
    + rewrite fmap_cons; simpl. intros [= -> Hrest].
      apply (elem_of_columns_rename mapping (mkDataFrame n cs) r l Hm) in Hin.
      apply (named_nil_iff l (rename mapping (mkDataFrame n cs))) in Hrest.
      done.
    + by apply IH.
Qed.

Lemma nrows_backfill df : nrows (backfill df) = nrows df.
Proof.
  unfold backfill; simpl. repeat case_decide; unfold setitem_scalar;
    by rewrite ?nrows_setitem.
Qed.

Lemma named_backfill_other df l :
  l <> "category" -> l <> "description" ->
  named l (backfill df) = named l df.
Proof.
  intros H1 H2. unfold backfill; simpl.
  repeat case_decide; unfold setitem_scalar;
    by rewrite ?named_setitem_ne.
Qed.

Lemma named_backfill_present df l :
  l ∈ columns df -> named l (backfill df) = named l df.
Proof.
  intros Hin. unfold backfill, setitem_scalar; simpl.
  destruct (decide ("category" ∈ columns df)) as [Hc|Hc].
  - destruct (decide ("description" ∈ columns df)) as [Hd|Hd]; [done|].
    apply named_setitem_ne. congruence.
  - destruct (decide ("description" ∈ columns (setitem df _ _))) as [Hd|Hd].
    + apply named_setitem_ne. congruence.
    + rewrite !named_setitem_ne; [done|congruence|].
      intros ->. apply Hd. apply elem_of_columns_setitem. by right.
Qed.

Lemma named_backfill_absent df l :
  l ∈ ["category"; "description"] -> l ∉ columns df ->
  named l (backfill df) = [replicate (nrows df) VNull].
Proof.
  intros Hl Hout. unfold backfill, setitem_scalar; simpl.
  apply elem_of_cons in Hl as [->|Hl];
    [|apply list_elem_of_singleton in Hl as ->].
  - destruct (decide ("category" ∈ columns df)); [done|].
    destruct (decide ("description" ∈ _)).
    + rewrite named_setitem_eq. by rewrite decide_False.
    + rewrite named_setitem_ne by done.
      rewrite named_setitem_eq. by rewrite decide_False.
  - destruct (decide ("category" ∈ columns df)).
    + destruct (decide ("description" ∈ columns df)); [done|].
      rewrite named_setitem_eq. by rewrite decide_False.
    + destruct (decide ("description" ∈ _)) as [Hd|Hd].
      * apply elem_of_columns_setitem in Hd as [?|?]; done.
      * rewrite named_setitem_eq, nrows_setitem.
        by rewrite decide_False.
Qed.

Lemma backfill_columns df l :
  l ∈ columns (backfill df) <->
  l = "category" \/ l = "description" \/ l ∈ columns df.
Proof.
  unfold backfill, setitem_scalar; simpl.
  repeat case_decide; rewrite ?elem_of_columns_setitem;
    repeat match goal with
           | H : _ ∈ columns (setitem _ _ _) |- _ =>
               rewrite elem_of_columns_setitem in H
           | H : ~ _ ∈ columns (setitem _ _ _) |- _ =>
               rewrite elem_of_columns_setitem in H
           end;
    split; intros; destruct_or?; subst; tauto.
Qed.

(** ** The normalizers, column by column *)

#[local] Abbreviation numeric_of := (to_numeric_elt parse_number).
#[local] Abbreviation datetime_of := (to_datetime parse_date).

Lemma canonical_columns_NoDup : NoDup canonical_columns.
Proof. by apply (bool_decide_unpack _). Qed.

Lemma all_keys_in_elem_of mapping df k v :
  all_keys_in mapping df = true -> mapping !! k = Some v -> k ∈ columns df.
Proof.
  unfold all_keys_in. intros H%bool_decide_eq_true Hk. by apply (H k v).
Qed.

Lemma named_col df name s : named name df = [s] -> col df name = s.
Proof. unfold col. by intros ->. Qed.

Lemma apply_chase_mapping_Ok mapping df out date_header :
  mapping !! date_header = Some "date" ->
  mapping !! "Amount" = Some "amount" ->
  mapping !! "Description" = Some "description" ->
  mapping !! "Category" = Some "category" ->
  all_keys_in mapping df = true ->
  apply_chase_mapping parse_number parse_date mapping df = Ok out ->
  nrows out = nrows df /\
  named "date" out = [datetime_of (col df date_header)] /\
  named "amount" out = [negate (numeric_of <$> col df "Amount")] /\
  col out "account" = replicate (nrows df) (VStr "Chase") /\
  named "description" out = named "description" (rename mapping df) /\
  named "category" out = named "category" (rename mapping df) /\
  (forall l, l ∈ canonical_columns -> l ∈ columns out) /\
  (forall l, l ∉ canonical_columns -> l ∉ columns out).
Proof.
  intros Hdate Hamount Hdesc Hcat Hkeys. unfold apply_chase_mapping.
  set (df1 := rename mapping df).
  destruct (getitem df1 "date") as [[d|?]|?] eqn:Hd; simpl; try done.
  set (df2 := setitem df1 "date" _).
  destruct (getitem df2 "amount") as [[a|?]|?] eqn:Ha; simpl; try done.
  set (df3 := setitem df2 "amount" _).
  set (df4 := setitem_scalar df3 "account" _).
  intros (Hn & Hin & Hnamed)%getitems_Ok; [|apply canonical_columns_NoDup].
  unfold df2 in Ha. rewrite getitem_setitem_ne in Ha by done.
  apply getitem_Column in Hd as [Hd _], Ha as [Ha _].
  pose proof (named_rename_unique mapping df date_header "date" d Hdate
                (all_keys_in_elem_of _ _ _ _ Hkeys Hdate) Hd) as Hd'.
  pose proof (named_rename_unique mapping df "Amount" "amount" a Hamount
                (all_keys_in_elem_of _ _ _ _ Hkeys Hamount) Ha) as Ha'.
  apply named_col in Hd', Ha'. rewrite Hd', Ha'.
  assert (forall l, l <> "date" -> l <> "amount" -> l <> "account" ->
                    named l df4 = named l df1) as Hrest.
  { intros l ? ? ?. unfold df4, setitem_scalar, df3, df2.
    by rewrite !named_setitem_ne. }
  assert (forall l, l ∈ columns df1 -> l ∈ columns df4) as Hmono.
  { intros l Hl. unfold df4, setitem_scalar, df3, df2.
    rewrite !elem_of_columns_setitem. auto. }
  pose proof (elem_of_columns_rename mapping df _ _ Hdesc
                (all_keys_in_elem_of _ _ _ _ Hkeys Hdesc)) as Hdesc1.
  pose proof (elem_of_columns_rename mapping df _ _ Hcat
                (all_keys_in_elem_of _ _ _ _ Hkeys Hcat)) as Hcat1.
  split_and!.
  - rewrite Hn, nrows_backfill. unfold df4, setitem_scalar, df3, df2.
    by rewrite !nrows_setitem.
  - rewrite Hnamed, decide_True by (by apply (bool_decide_unpack _)).
    rewrite named_backfill_other by done.
    unfold df4, setitem_scalar, df3, df2.
    rewrite !named_setitem_ne by done. rewrite named_setitem_eq, Hd.
    by destruct (decide _).
  - rewrite Hnamed, decide_True by (by apply (bool_decide_unpack _)).
    rewrite named_backfill_other by done.
    unfold df4, setitem_scalar, df3.
    rewrite named_setitem_ne by done. rewrite named_setitem_eq.
    unfold df2. rewrite named_setitem_ne by done. rewrite Ha.
    by destruct (decide _).
  - unfold col at 1.
    rewrite Hnamed, decide_True by (by apply (bool_decide_unpack _)).
    rewrite named_backfill_other by done.
    fold (col df4 "account"). unfold df4, setitem_scalar.
    rewrite col_setitem_eq. unfold df3, df2. by rewrite !nrows_setitem.
  - rewrite Hnamed, decide_True by (by apply (bool_decide_unpack _)).
    rewrite named_backfill_present by auto. by apply Hrest.
  - rewrite Hnamed, decide_True by (by apply (bool_decide_unpack _)).
    rewrite named_backfill_present by auto. by apply Hrest.
  - intros l Hl. destruct (decide (l ∈ columns out)) as [|Hout]; [done|].
    apply named_nil_iff in Hout. rewrite Hnamed, decide_True in Hout by done.
    apply named_nil_iff in Hout. by apply Hin in Hl.
  - intros l Hl. apply named_nil_iff. by rewrite Hnamed, decide_False.
Qed.

Lemma normalize_chase_Ok df out :
  normalize_chase parse_number parse_date df = Ok out ->
  exists mapping date_header,
    mapping ∈ CHASE_MAPS /\
    date_header ∈ ["Trans Date"; "Transaction Date"] /\
    mapping !! date_header = Some "date" /\
    all_keys_in mapping df = true /\
    nrows out = nrows df /\
    named "date" out = [datetime_of (col df date_header)] /\
    named "amount" out = [negate (numeric_of <$> col df "Amount")] /\
    col out "account" = replicate (nrows df) (VStr "Chase") /\
    named "description" out = named "description" (rename mapping df) /\
    named "category" out = named "category" (rename mapping df) /\
    (forall l, l ∈ canonical_columns -> l ∈ columns out) /\
    (forall l, l ∉ canonical_columns -> l ∉ columns out).
Proof.
  unfold normalize_chase, CHASE_MAPS, try_chase_mappings.
  set (old := {[ "Trans Date" := "date"; "Description" := "description";
                 "Category" := "category"; "Amount" := "amount" ]}
              : gmap string string).
  set (new := {[ "Transaction Date" := "date";
                 "Description" := "description";
                 "Category" := "category"; "Amount" := "amount" ]}
              : gmap string string).
  destruct (all_keys_in old df) eqn:Hold.
  - intros H. exists old, "Trans Date".
    split_and!; [rewrite !elem_of_cons; auto|rewrite !elem_of_cons; auto
                |done|done|..];
      by eapply (apply_chase_mapping_Ok old df out "Trans Date").
  - destruct (all_keys_in new df) eqn:Hnew; [|done].
    intros H. exists new, "Transaction Date".
    split_and!; [rewrite !elem_of_cons; auto|rewrite !elem_of_cons; auto
                |done|done|..];
      by eapply (apply_chase_mapping_Ok new df out "Transaction Date").
Qed.

Lemma normalize_chase_no_mapping df :
  Forall (fun mapping => all_keys_in mapping df = false) CHASE_MAPS ->
  normalize_chase parse_number parse_date df
  = Raise (ValueError "No valid Chase mapping found").
Proof.
  unfold normalize_chase.
  induction CHASE_MAPS as [|mapping maps IH]; [done|].
  intros [Hm Hrest]%Forall_cons; simpl. rewrite Hm. by apply IH.
Qed.

Lemma numeric_get_Ok df name s :
  pd_to_numeric parse_number (get df name (VNum 0)) ≫= fillna_zero = Ok s ->
  exists raw, named name df = [raw] /\
              s = fillna (VNum 0) (numeric_of <$> raw).
Proof.
  unfold get. destruct (getitem df name) as [[raw|?]|?] eqn:Hget;
    simpl; try done.
  intros [= <-]. exists raw. by apply getitem_Column in Hget as [-> _].
Qed.

Lemma numeric_get_absent df name :
  name ∉ columns df ->
  pd_to_numeric parse_number (get df name (VNum 0)) ≫= fillna_zero
  = Raise (AttributeError "'int' object has no attribute 'fillna'").
Proof.
  intros Hout%named_nil_iff. unfold get, getitem. by rewrite Hout.
Qed.

Lemma normalize_capone_Ok df out :
  normalize_capone parse_number parse_date df = Ok out ->
  exists date debit credit,
    named "date" (rename CAPONE_MAP df) = [date] /\
    named "debit" (rename CAPONE_MAP df) = [debit] /\
    named "credit" (rename CAPONE_MAP df) = [credit] /\
    nrows out = nrows df /\
    col out "date" = datetime_of date /\
    col out "amount" =
      sub_series (fillna (VNum 0) (numeric_of <$> debit))
                 (fillna (VNum 0) (numeric_of <$> credit)) /\
    col out "account" = replicate (nrows df) (VStr "Capital One") /\
    (forall l, l ∈ ["description"; "category"] ->
       named l out =
       if decide (l ∈ columns (rename CAPONE_MAP df))
       then named l (rename CAPONE_MAP df)
       else [replicate (nrows df) VNull]) /\
    (forall l, l ∈ canonical_columns -> l ∈ columns out) /\
    (forall l, l ∉ canonical_columns -> l ∉ columns out).
Proof.
  unfold normalize_capone.
  set (df1 := rename CAPONE_MAP df).
  destruct (getitem df1 "date") as [[d|?]|?] eqn:Hd; simpl; try done.
  set (df2 := setitem df1 "date" _).
  destruct (_ ≫= fillna_zero) as [debit'|?] eqn:Hdebit; simpl; [|done].
  apply numeric_get_Ok in Hdebit as (debit & Hdebit & ->).
  set (df3 := setitem df2 "debit" _).
  destruct (_ ≫= fillna_zero) as [credit'|?] eqn:Hcredit; simpl; [|done].
  apply numeric_get_Ok in Hcredit as (credit & Hcredit & ->).
  set (df4 := setitem df3 "credit" _).
  unfold df2 in Hdebit. rewrite named_setitem_ne in Hdebit by done.
  unfold df3, df2 in Hcredit. rewrite !named_setitem_ne in Hcredit by done.
  apply getitem_Column in Hd as [Hd _].
  assert (getitem df4 "debit"
          = Ok (Column (fillna (VNum 0) (numeric_of <$> debit)))) as ->.
  { unfold getitem, df4. rewrite named_setitem_ne by done.
    unfold df3. rewrite named_setitem_eq.
    unfold df2. rewrite named_setitem_ne by done. rewrite Hdebit.
    by destruct (decide _). }
  assert (getitem df4 "credit"
          = Ok (Column (fillna (VNum 0) (numeric_of <$> credit)))) as ->.
  { unfold getitem, df4. rewrite named_setitem_eq.
    unfold df3, df2. rewrite !named_setitem_ne by done. rewrite Hcredit.
    by destruct (decide _). }
  simpl.
  set (df5 := setitem df4 "amount" _).
  set (df6 := setitem_scalar df5 "account" _).
  intros (Hn & Hin & Hnamed)%getitems_Ok; [|apply canonical_columns_NoDup].
  assert (nrows df6 = nrows df) as Hrows.
  { unfold df6, setitem_scalar, df5, df4, df3, df2.
    by rewrite !nrows_setitem. }
  exists d, debit, credit. split_and!; try done.
  - by rewrite Hn, nrows_backfill.
  - unfold col at 1.
    rewrite Hnamed, decide_True by (by apply (bool_decide_unpack _)).
    rewrite named_backfill_other by done.
    unfold df6, setitem_scalar, df5, df4, df3, df2.
    rewrite !named_setitem_ne by done. rewrite named_setitem_eq.
    fold df1. rewrite Hd. by destruct (decide _).
  - unfold col at 1.
    rewrite Hnamed, decide_True by (by apply (bool_decide_unpack _)).
    rewrite named_backfill_other by done.
    fold (col df6 "amount"). unfold df6, setitem_scalar.
    rewrite col_setitem_ne by done. unfold df5. by rewrite col_setitem_eq.
  - unfold col at 1.
    rewrite Hnamed, decide_True by (by apply (bool_decide_unpack _)).
    rewrite named_backfill_other by done.
    fold (col df6 "account"). unfold df6, setitem_scalar.
    rewrite col_setitem_eq. unfold df5, df4, df3, df2.
    by rewrite !nrows_setitem.
  - intros l Hl. rewrite Hnamed.
    rewrite decide_True
      by (revert Hl; unfold canonical_columns; rewrite !elem_of_cons; tauto).
    assert (l <> "date" /\ l <> "debit" /\ l <> "credit" /\ l <> "amount"
            /\ l <> "account") as (? & ? & ? & ? & ?).
    { revert Hl. rewrite !elem_of_cons.
      intros [->|[->|[]%elem_of_nil]]; done. }
    assert (l ∈ columns df6 <-> l ∈ columns df1) as Hiff.
    { unfold df6, setitem_scalar, df5, df4, df3, df2.
      rewrite !elem_of_columns_setitem. tauto. }
    assert (named l df6 = named l df1) as Heq.
    { unfold df6, setitem_scalar, df5, df4, df3, df2.
      by rewrite !named_setitem_ne. }
    destruct (decide (l ∈ columns df1)) as [Hp|Hp].
    + rewrite named_backfill_present by (by apply Hiff). exact Heq.
    + rewrite named_backfill_absent, Hrows; [done| |by rewrite Hiff].
      revert Hl. rewrite !elem_of_cons. tauto.
  - intros l Hl. destruct (decide (l ∈ columns out)) as [|Hout]; [done|].
    apply named_nil_iff in Hout. rewrite Hnamed, decide_True in Hout by done.
    apply named_nil_iff in Hout. by apply Hin in Hl.
  - intros l Hl. apply named_nil_iff. by rewrite Hnamed, decide_False.
Qed.

(** ** The frames the loop keeps and the collection built from them *)


Lemma normalizers_lookup bank normalize :
  normalizer_of !! bank = Some normalize ->
  (bank = "chase" /\ normalize = normalize_chase parse_number parse_date) \/
  (bank = "capone" /\ normalize = normalize_capone parse_number parse_date).
Proof.
  unfold normalizers.
  intros [[<- <-]|[_ [<- <-]%lookup_singleton_Some]]%lookup_insert_Some; auto.
Qed.

Lemma normalized_schema bank normalize df out :
  normalizer_of !! bank = Some normalize ->
  normalize df = Ok out ->
  nrows out = nrows df /\
  (forall l, l ∈ canonical_columns -> l ∈ columns out) /\
  (forall l, l ∉ canonical_columns -> l ∉ columns out).
Proof.
  intros [[_ ->]|[_ ->]]%normalizers_lookup H.
  - apply normalize_chase_Ok in H
      as (? & ? & _ & _ & _ & _ & ? & _ & _ & _ & _ & _ & ? & ?). done.
  - apply normalize_capone_Ok in H
      as (? & ? & ? & _ & _ & _ & ? & _ & _ & _ & _ & ? & ?). done.
Qed.

(** Schema closure: a kept frame has the five canonical labels and
    [grouped_category], and no other. *)
Lemma kept_frame_schema files df :
  df ∈ dfs (run_loop files) ->
  (forall l, l ∈ columns df <-> l ∈ collection_columns) /\
  exists category,
    getitem df "category" = Ok (Column category) /\
    col df "grouped_category" = grouped_category_of <$> category.
Proof.
  intros (file & normalize & norm_df & _ & Hn & Hnorm & Hadd)%upload_loop_frames.
  destruct (normalized_schema _ _ _ _ Hn Hnorm) as (_ & Hin & Hout).
  apply add_grouped_category_Ok in Hadd as (category & Hcat & ->).
  split.
  - intros l. rewrite elem_of_columns_setitem.
    change collection_columns
      with (canonical_columns ++ ["grouped_category"]).
    rewrite elem_of_app, list_elem_of_singleton.
    split.
    + intros [->|Hl]; [by right|left].
      destruct (decide (l ∈ canonical_columns)) as [|Hno]; [done|].
      by apply Hout in Hno.
    + intros [Hl| ->]; [right; by apply Hin|by left].
  - exists category. split; [|apply col_setitem_eq].
    by rewrite getitem_setitem_ne.
Qed.

Lemma bind_column_or_nulls name (frames : list DataFrame) :
  Forall (fun df => name ∈ columns df) frames ->
  frames ≫= column_or_nulls name = frames ≫= (fun df => col df name).
Proof.
  induction 1 as [|df frames Hdf _ IH]; [done|].
  by rewrite !bind_cons, IH, column_or_nulls_col.
Qed.


Lemma ingest_Ok files all_data ws :
  run files = Ok (all_data, ws) ->
  ws = warnings (run_loop files) /\
  forall name, name ∈ collection_columns ->
    col all_data name =
    keep (payment_mask (stacked (dfs (run_loop files)) "description"))
         (stacked (dfs (run_loop files)) name).
Proof.
  unfold ingest.
  destruct (build_all_data _) as [data|e] eqn:Hbuild; [|done].
  simpl. intros [= <- <-]. split; [done|]. intros name Hname.
  pose proof (kept_frame_schema files) as Hschema.
  apply build_all_data_Ok in Hbuild
    as [[Hnil ->]|(Hne & whole & Hcat & Hdrop)].
  - by rewrite Hnil.
  - set (frames := dfs (run_loop files)) in *.
    assert (forall l, l ∈ collection_columns ->
              col whole l = stacked frames l) as Hwhole.
    { intros l Hl. apply concat_Ok in Hcat as [_ Hcol]. rewrite Hcol.
      assert (Forall (fun df => l ∈ columns df) frames) as Hall.
      { apply Forall_forall. intros df Hdf.
        by apply (Hschema df Hdf). }
      rewrite decide_True.
      - by apply bind_column_or_nulls.
      - destruct frames as [|df rest]; [done|].
        rewrite bind_cons, elem_of_app. left.
        by apply Forall_cons in Hall as [? _]. }
    apply drop_payment_rows_Ok in Hdrop as (s & Hs & ->).
    apply getitem_Column in Hs as [_ Hs].
    rewrite col_bool_index, <- Hs, !Hwhole; [done|done|].
    by apply (bool_decide_unpack _).
Qed.

(** ** Category mapping *)

Lemma stacked_grouped_category files :
  stacked (dfs (run_loop files)) "grouped_category"
  = grouped_category_of <$> stacked (dfs (run_loop files)) "category".
Proof.
  pose proof (kept_frame_schema files) as Hschema. unfold stacked.
  induction (dfs (run_loop files)) as [|df frames IH]; [done|].
  rewrite !bind_cons, fmap_app. f_equal.
  - destruct (Hschema df) as (_ & c & Hc & ->);
      [apply elem_of_cons; by left|].
    by apply getitem_Column in Hc as [_ ->].
  - apply IH. intros df' Hdf'. apply Hschema.
    apply elem_of_cons; by right.
Qed.

(** C4. The category mapping is total: whatever the raw category (text,
    number or null), the grouped category is a text; a key of the table
    gets its table entry and anything else gets "Other"; and in the
    canonical collection every row's grouped category is the mapping of
    that row's category, hence never null. *)
Theorem grouped_category_total files all_data ws (category : value) :
  run files = Ok (all_data, ws) ->
  fillna (VStr "Other") (map_dict CATEGORY_MAP [category])
    = [grouped_category_of category] /\
  (exists g, grouped_category_of category = VStr g) /\
  (forall k g, category = VStr k -> CATEGORY_MAP !! k = Some g ->
               grouped_category_of category = VStr g) /\
  ((forall k, category = VStr k -> CATEGORY_MAP !! k = None) ->
   grouped_category_of category = VStr "Other") /\
  col all_data "grouped_category"
    = grouped_category_of <$> col all_data "category" /\
  Forall (fun v => exists g, v = VStr g) (col all_data "grouped_category").
Proof.
  intros [_ Hcol]%ingest_Ok.
  assert (col all_data "grouped_category"
          = grouped_category_of <$> col all_data "category") as Heq.
  { rewrite !Hcol by (by apply (bool_decide_unpack _)).
    rewrite <- keep_fmap. f_equal. apply stacked_grouped_category. }
  split_and!.
  - apply (fillna_map_dict [category]).
  - destruct category as [z|k|t|]; simpl; eauto.
  - intros k g -> Hk; simpl. by rewrite Hk.
  - intros Hnone. destruct category as [z|k|t|]; simpl; try done.
    by rewrite (Hnone k eq_refl).
  - exact Heq.
  - rewrite Heq. apply Forall_fmap, Forall_true.
    intros [z|k|t|]; simpl; eauto.
Qed.

(** ** The payment-row filter *)

Lemma append_String a p s : String a p +:+ s = String a (p +:+ s).
Proof. reflexivity. Qed.

Lemma append_empty_l s : EmptyString +:+ s = s.
Proof. reflexivity. Qed.

Lemma append_empty_r s : s +:+ EmptyString = s.
Proof.
  induction s as [|a s IH]; [done|]. by rewrite append_String, IH.
Qed.

Lemma prefix_spec p s :
  String.prefix p s = true <-> exists after, s = p +:+ after.
Proof.
  revert s; induction p as [|a p IH]; intros s.
  - split; [intros _; by exists s|by destruct s].
  - destruct s as [|b s]; [split; [done|by intros [? ?]]|]. simpl.
    destruct (Ascii.ascii_dec a b) as [->|Hne].
    + rewrite IH. split; intros [after H]; exists after;
        rewrite append_String in *; congruence.
    + split; [done|]. intros [after H]. rewrite append_String in H.
      congruence.
Qed.

Lemma is_substring_cons p c s :
  is_substring p (String c s)
  = String.prefix p (String c s) || is_substring p s.
Proof. reflexivity. Qed.

Lemma is_substring_spec p s : is_substring p s = true <-> contains s p.
Proof.
  unfold contains. induction s as [|c s IH].
  - change (is_substring p EmptyString)
      with (String.prefix p EmptyString || false).
    rewrite orb_false_r, prefix_spec. split.
    + intros [after H]. by exists EmptyString, after.
    + intros ([|? ?] & after & H); [by exists after|done].
  - rewrite is_substring_cons, orb_true_iff, IH, prefix_spec. split.
    + intros [[after H]|(before & after & H)].
      * by exists EmptyString, after.
      * exists (String c before), after. by rewrite append_String, H.
    + intros ([|b before] & after & H).
      * left. by exists after.
      * right. exists before, after. rewrite append_String in H.
        congruence.
Qed.

Lemma same_letter_lower a b : same_letter a b -> lower_char a = lower_char b.
Proof.
  unfold same_letter, lower_char.
  intros [->|[[Ha Hb]|[Hb Ha]]]; [done| |].
  - rewrite Hb.
    destruct (65 <=? nat_of_ascii a)%nat eqn:H1; [|apply Nat.leb_gt in H1; lia].
    destruct (nat_of_ascii a <=? 90)%nat eqn:H2; [|apply Nat.leb_gt in H2; lia].
    simpl.
    destruct (nat_of_ascii a + 32 <=? 90)%nat eqn:H3;
      [apply Nat.leb_le in H3; lia|].
    rewrite andb_false_r, <- Hb. by rewrite ascii_nat_embedding.
  - rewrite Ha.
    destruct (65 <=? nat_of_ascii b)%nat eqn:H1; [|apply Nat.leb_gt in H1; lia].
    destruct (nat_of_ascii b <=? 90)%nat eqn:H2; [|apply Nat.leb_gt in H2; lia].
    simpl.
    destruct (nat_of_ascii b + 32 <=? 90)%nat eqn:H3;
      [apply Nat.leb_le in H3; lia|].
    rewrite andb_false_r, <- Ha. by rewrite ascii_nat_embedding.
Qed.

Lemma differs_only_in_case_lower s t :
  differs_only_in_case s t -> lower s = lower t.
Proof.
  revert t; induction s as [|a s IH]; intros [|b t]; simpl; try done.
  intros [Hab Hst]. by rewrite (same_letter_lower a b Hab), (IH t Hst).
Qed.

Lemma is_payment_row_spec description :
  is_payment_row description = true <->
  description <> VNull /\
  exists phrase, phrase ∈ PAYMENT_PHRASES /\
                 contains (lower (py_str description)) phrase.
Proof.
  unfold is_payment_row.
  destruct (isna description) eqn:Hna.
  - destruct description; try done. split; [done|by intros [? _]].
  - rewrite existsb_exists. split.
    + intros (phrase & Hin & Hsub). split; [by intros ->|].
      exists phrase. split; [by apply list_elem_of_In|].
      by apply is_substring_spec.
    + intros (_ & phrase & Hin & Hsub). exists phrase.
      split; [by apply list_elem_of_In|]. by apply is_substring_spec.
Qed.

Lemma keep_test_filter {A} (f : A -> bool) (s : list A) :
  keep (f <$> s) s = filter (fun x => f x = true) s.
Proof.
  induction s as [|x s IH]; [done|].
  rewrite fmap_cons, filter_cons; simpl.
  destruct (f x) eqn:Hx; rewrite IH.
  - by rewrite decide_True.
  - by rewrite decide_False by (by intros ?).
Qed.


(** ** One file failing leaves the others alone *)

Lemma contribution_frames file :
  dfs (contribution_of file) = option_list (frame_of file).
Proof.
  unfold contribution, process_file, normalized_frame.
  destruct (normalizer_of !! _) as [normalize|]; [|done].
  by destruct (normalize _ ≫= add_grouped_category).
Qed.

(** The loop keeps exactly the frames of the files that normalize, in
    upload order. *)
Lemma upload_loop_frames_omap files :
  dfs (run_loop files) = omap frame_of files.
Proof.
  induction files as [|file files IH]; [done|].
  rewrite upload_loop_cons; simpl. rewrite contribution_frames, IH.
  by destruct (frame_of file).
Qed.

(** C3 (amended). A file detected as Chase whose headers satisfy neither
    Chase mapping fails with the fixed error "No valid Chase mapping
    found" (which names no column); the loop skips that file only, adds
    one warning carrying the file's name, and the frames, the other
    warnings and the collection built are those of the batch without the
    file. *)
Theorem chase_mapping_failure_isolated files1 file files2 :
  detect_bank (content file) = "chase" ->
  Forall (fun mapping => all_keys_in mapping (content file) = false)
         CHASE_MAPS ->
  normalize_chase parse_number parse_date (content file)
    = Raise (ValueError "No valid Chase mapping found") /\
  dfs (run_loop (files1 ++ file :: files2))
    = omap frame_of (files1 ++ files2) /\
  dfs (run_loop (files1 ++ file :: files2))
    = dfs (run_loop files1) ++ dfs (run_loop files2) /\
  warnings (run_loop (files1 ++ file :: files2))
    = warnings (run_loop files1)
      ++ ["Error normalizing " +:+ file_name file
            +:+ ": No valid Chase mapping found"]
      ++ warnings (run_loop files2) /\
  build_all_data (dfs (run_loop (files1 ++ file :: files2)))
    = build_all_data (dfs (run_loop (files1 ++ files2))).
Proof.
  intros Hbank Hnone.
  pose proof (normalize_chase_no_mapping (content file) Hnone) as Hraise.
  assert (contribution_of file
          = mkLoopState []
              ["Error normalizing " +:+ file_name file
                 +:+ ": No valid Chase mapping found"]) as Hfile.
  { unfold contribution, process_file. rewrite Hbank.
    unfold normalizers. rewrite lookup_insert_eq.
    by rewrite Hraise. }
  assert (dfs (run_loop (files1 ++ file :: files2))
          = dfs (run_loop files1) ++ dfs (run_loop files2)) as Hdfs.
  { rewrite upload_loop_app; simpl. by rewrite upload_loop_cons, Hfile. }
  split_and!; [done| |done| |].
  - rewrite Hdfs, <- (upload_loop_frames_omap (files1 ++ files2)).
    by rewrite upload_loop_app.
  - rewrite upload_loop_app; simpl. by rewrite upload_loop_cons, Hfile.
  - rewrite Hdfs. by rewrite upload_loop_app.
Qed.

(** ** The monthly summary *)

Lemma sum_series_filter (test : Z -> bool) (s : list value) :
  sum_series (filter (fun v => match v with
                               | VNum z => test z
                               | _ => false
                               end = true) s)
  = total (filter (fun z => test z = true) (numbers s)).
Proof.
  induction s as [|v s IH]; [done|].
  rewrite filter_cons. destruct v as [z|k|t|].
  - change (numbers (VNum z :: s)) with (z :: numbers s).
    rewrite filter_cons.
    destruct (decide (test z = true)) as [Hz|Hz]; [|exact IH].
    change (z + sum_series (filter (fun v => match v with
                                            | VNum z => test z
                                            | _ => false
                                            end = true) s)
            = z + total (filter (fun z => test z = true) (numbers s))).
    by rewrite IH.
  - rewrite decide_False by done. exact IH.
  - rewrite decide_False by done. exact IH.
  - rewrite decide_False by done. exact IH.
Qed.

Lemma total_Permutation (xs ys : list Z) : xs ≡ₚ ys -> total xs = total ys.
Proof.
  unfold total. induction 1; simpl; lia.
Qed.

Lemma col_month_df all_data selected_month name :
  name <> "month" ->
  col (month_df all_data selected_month) name =
  keep ((fun d => bool_decide (month_str d = VStr selected_month))
          <$> col all_data "date")
       (col all_data name).
Proof.
  intros Hne. unfold month_df, with_month.
  rewrite col_bool_index, col_setitem_eq, col_setitem_ne by done.
  by rewrite <- list_fmap_compose.
Qed.


End PipelineProperties.

(** ** Grouped sums *)

Section GroupByProperties.

Context {K : Type} `{EqDecision K} (cmp : K -> K -> comparison).
Hypothesis cmp_eq : forall a b, cmp a b = Eq <-> a = b.
Hypothesis cmp_antisym : forall a b, cmp a b = CompOpp (cmp b a).
Hypothesis cmp_trans :
  forall a b c, cmp a b = Lt -> cmp b c = Lt -> cmp a c = Lt.

Lemma all_above_lookup k groups :
  all_above cmp k groups -> group_lookup cmp k groups = None.
Proof.
  induction 1 as [|[k' z] rest Hk _ IH]; [done|].
  simpl in *. by rewrite Hk.
Qed.

Lemma all_above_trans k k' groups :
  cmp k k' = Lt -> all_above cmp k' groups -> all_above cmp k groups.
Proof.
  intros Hlt Hall. unfold all_above in *.
  eapply Forall_impl; [exact Hall|].
  intros g Hg. by apply (cmp_trans k k').
Qed.

Lemma all_above_add k0 k z groups :
  cmp k0 k = Lt -> all_above cmp k0 groups ->
  all_above cmp k0 (add_to_group cmp k z groups).
Proof.
  intros Hlt. induction 1 as [|[k' z'] rest Hk Hrest IH]; simpl.
  - by repeat constructor.
  - destruct (cmp k k').
    + by constructor.
    + constructor; [done|]. by constructor.
    + by constructor.
Qed.

Lemma increasing_add k z groups :
  increasing cmp groups -> increasing cmp (add_to_group cmp k z groups).
Proof.
  induction groups as [|[k' z'] rest IH]; simpl;
    [intros _; split; [constructor|done]|].
  intros [Habove Hinc]. destruct (cmp k k') eqn:Hcmp; simpl.
  - by split.
  - split; [|done]. constructor; [done|].
    by apply (all_above_trans k k').
  - split; [|by apply IH]. apply all_above_add; [|done].
    rewrite cmp_antisym, Hcmp. done.
Qed.

Lemma lookup_add_to_group k' k z groups :
  increasing cmp groups ->
  group_lookup cmp k' (add_to_group cmp k z groups) =
  if decide (k' = k)
  then Some (default 0 (group_lookup cmp k groups) + z)
  else group_lookup cmp k' groups.
Proof.
  assert (forall a, cmp a a = Eq) as Hrefl by (intros a; by apply cmp_eq).
  assert (forall a b, a <> b -> cmp a b <> Eq) as Hneq
    by (intros a b Hab Hc; by apply cmp_eq in Hc).
  induction groups as [|[k0 z0] rest IH]; simpl.
  - intros _. destruct (decide (k' = k)) as [->|Hne].
    + by rewrite Hrefl.
    + pose proof (Hneq _ _ Hne). by destruct (cmp k' k).
  - intros [Habove Hinc]. destruct (cmp k k0) eqn:Hcmp; simpl.
    + apply cmp_eq in Hcmp as <-.
      destruct (decide (k' = k)) as [->|Hne].
      * by rewrite Hrefl.
      * pose proof (Hneq _ _ Hne). by destruct (cmp k' k).
    + rewrite (all_above_lookup k rest)
        by (by apply (all_above_trans k k0)).
      destruct (decide (k' = k)) as [->|Hne].
      * by rewrite Hrefl.
      * pose proof (Hneq _ _ Hne). by destruct (cmp k' k).
    + rewrite IH by done.
      destruct (decide (k' = k)) as [->|Hne]; [by rewrite Hcmp|done].
Qed.

Lemma foldl_groups_increasing (rows : list (option K * value)) groups :
  increasing cmp groups ->
  increasing cmp
    (foldl (fun groups row =>
              match row.1 with
              | Some k => add_to_group cmp k (num row.2) groups
              | None => groups
              end) groups rows).
Proof.
  revert groups. induction rows as [|[[k|] v] rows IH]; intros groups Hinc;
    simpl; [done| |by apply IH].
  by apply IH, increasing_add.
Qed.

Lemma foldl_groups_lookup k (rows : list (option K * value)) groups :
  increasing cmp groups ->
  group_lookup cmp k
    (foldl (fun groups row =>
              match row.1 with
              | Some k => add_to_group cmp k (num row.2) groups
              | None => groups
              end) groups rows) =
  match filter (fun row => row.1 = Some k) rows with
  | [] => group_lookup cmp k groups
  | matching =>
      Some (default 0 (group_lookup cmp k groups) + sum_series matching.*2)
  end.
Proof.
  revert groups. induction rows as [|[[k'|] v] rows IH]; intros groups Hinc;
    [done| |].
  - rewrite filter_cons.
    destruct (decide _) as [Heq|Heq]; simpl in Heq; simpl;
      rewrite IH by (by apply increasing_add);
      rewrite lookup_add_to_group by done.
    + injection Heq as ->. rewrite decide_True by done. simpl.
      destruct (filter _ rows) as [|row matching]; simpl; f_equal; lia.
    + rewrite decide_False by congruence. done.
  - rewrite filter_cons.
    destruct (decide _) as [Heq|Hne]; [done|]. simpl. by apply IH.
Qed.

(** The group of a key holds the sum of the amounts of the rows that
    carry the key, and there is no group for a key that no row carries. *)
Lemma groupby_sum_lookup k keys amounts :
  group_lookup cmp k (groupby_sum cmp keys amounts)
  = group_total k keys amounts.
Proof.
  unfold groupby_sum, group_total.
  rewrite foldl_groups_lookup by done.
  by destruct (filter _ _) as [|row matching].
Qed.

Lemma group_lookup_None k groups :
  group_lookup cmp k groups = None <-> k ∉ groups.*1.
Proof.
  induction groups as [|[k' z] rest IH].
  - split; [intros _; apply not_elem_of_nil|done].
  - rewrite fmap_cons, not_elem_of_cons; simpl.
    destruct (cmp k k') eqn:Hc.
    + apply cmp_eq in Hc. split; [done|by intros [? _]].
    + rewrite IH. split; [|by intros [_ ?]]. intros ?. split; [|done].
      intros ->. by rewrite (proj2 (cmp_eq k' k') eq_refl) in Hc.
    + rewrite IH. split; [|by intros [_ ?]]. intros ?. split; [|done].
      intros ->. by rewrite (proj2 (cmp_eq k' k') eq_refl) in Hc.
Qed.

Lemma groupby_sum_increasing keys amounts :
  increasing cmp (groupby_sum cmp keys amounts).
Proof. by apply foldl_groups_increasing. Qed.

End GroupByProperties.

(** ** The order of texts, and of pairs of texts *)

Lemma ascii_compare_refl a : Ascii.compare a a = Eq.
Proof. apply N.compare_refl. Qed.

Lemma ascii_compare_trans a b c :
  Ascii.compare a b = Lt -> Ascii.compare b c = Lt -> Ascii.compare a c = Lt.
Proof.
  unfold Ascii.compare. rewrite !N.compare_lt_iff. apply N.lt_trans.
Qed.

Lemma string_compare_refl s : String.compare s s = Eq.
Proof.
  induction s as [|a s IH]; [done|]. simpl. by rewrite ascii_compare_refl.
Qed.

Lemma string_compare_eq a b : String.compare a b = Eq <-> a = b.
Proof.
  split; [apply String.compare_eq_iff|intros ->; apply string_compare_refl].
Qed.

Lemma string_compare_trans a b c :
  String.compare a b = Lt -> String.compare b c = Lt ->
  String.compare a c = Lt.
Proof.
  revert b c; induction a as [|x a IH]; intros [|y b] [|z c]; simpl;
    try done.
  destruct (Ascii.compare x y) eqn:Hxy; try done;
    destruct (Ascii.compare y z) eqn:Hyz; try done; intros H1 H2.
  - apply Ascii.compare_eq_iff in Hxy as ->.
    rewrite Hyz. by apply (IH b c).
  - apply Ascii.compare_eq_iff in Hxy as ->. by rewrite Hyz.
  - apply Ascii.compare_eq_iff in Hyz as <-. by rewrite Hxy.
  - by rewrite (ascii_compare_trans x y z).
Qed.

Lemma pair_compare_eq a b : pair_compare a b = Eq <-> a = b.
Proof.
  destruct a as [a1 a2], b as [b1 b2]. unfold pair_compare, lex; simpl.
  destruct (String.compare a1 b1) eqn:H1.
  - apply string_compare_eq in H1 as ->. rewrite string_compare_eq.
    split; [by intros ->|by intros [= ->]].
  - split; [done|]. intros [= -> ->].
    by rewrite string_compare_refl in H1.
  - split; [done|]. intros [= -> ->].
    by rewrite string_compare_refl in H1.
Qed.

Lemma pair_compare_antisym a b :
  pair_compare a b = CompOpp (pair_compare b a).
Proof.
  unfold pair_compare, lex.
  rewrite (String.compare_antisym a.1 b.1), (String.compare_antisym a.2 b.2).
  by destruct (String.compare b.1 a.1).
Qed.

Lemma pair_compare_trans a b c :
  pair_compare a b = Lt -> pair_compare b c = Lt -> pair_compare a c = Lt.
Proof.
  unfold pair_compare, lex.
  destruct (String.compare a.1 b.1) eqn:H1; try done;
    destruct (String.compare b.1 c.1) eqn:H2; try done; intros H3 H4.
  - apply string_compare_eq in H1, H2. rewrite H1, H2, string_compare_refl.
    by apply (string_compare_trans _ b.2).
  - apply string_compare_eq in H1. by rewrite H1, H2.
  - apply string_compare_eq in H2. by rewrite <- H2, H1.
  - by rewrite (string_compare_trans _ _ _ H1 H2).
Qed.

(** ** The category breakdown *)

Lemma keep_snd_zip {A B} (f : B -> bool) (a : list A) (b : list B) :
  keep (f <$> b) (zip a b) = filter (fun row => f row.2 = true) (zip a b).
Proof.
  revert b; induction a as [|x a IH]; intros [|y b]; try done.
  change (zip (x :: a) (y :: b)) with ((x, y) :: zip a b).
  rewrite fmap_cons, filter_cons. simpl. rewrite IH.
  destruct (f y); [by rewrite decide_True|by rewrite decide_False].
Qed.

Lemma filter_text_keys c (keys amounts : list value) :
  (filter (fun row => row.1 = Some c) (zip (text_key <$> keys) amounts)).*2
  = (filter (fun row => row.1 = VStr c) (zip keys amounts)).*2.
Proof.
  revert amounts; induction keys as [|k keys IH]; intros [|v amounts];
    try done.
  rewrite fmap_cons.
  change (zip (text_key k :: (text_key <$> keys)) (v :: amounts))
    with ((text_key k, v) :: zip (text_key <$> keys) amounts).
  change (zip (k :: keys) (v :: amounts)) with ((k, v) :: zip keys amounts).
  rewrite !filter_cons. simpl.
  destruct (decide (k = VStr c)) as [->|Hne].
  - simpl. rewrite decide_True by done. rewrite !fmap_cons. by rewrite IH.
  - rewrite decide_False; [apply IH|].
    destruct k; simpl; congruence.
Qed.


(** ** Period keys sort chronologically *)

Lemma lex_Eq_r c : lex c Eq = c.
Proof. by destruct c. Qed.

Lemma string_compare_cons a s b t :
  String.compare (String a s) (String b t)
  = lex (Ascii.compare a b) (String.compare s t).
Proof. simpl. by destruct (Ascii.compare a b). Qed.

Lemma digit_compare a b :
  Ascii.compare (digit a) (digit b) = (a mod 10 ?= b mod 10).
Proof.
  unfold digit.
  pose proof (Z.mod_pos_bound a 10 eq_refl) as Ha.
  pose proof (Z.mod_pos_bound b 10 eq_refl) as Hb.
  generalize dependent (a mod 10). generalize dependent (b mod 10).
  intros y Hy x Hx.
  assert (x = 0 \/ x = 1 \/ x = 2 \/ x = 3 \/ x = 4 \/ x = 5 \/ x = 6
          \/ x = 7 \/ x = 8 \/ x = 9) as Hxs by lia.
  assert (y = 0 \/ y = 1 \/ y = 2 \/ y = 3 \/ y = 4 \/ y = 5 \/ y = 6
          \/ y = 7 \/ y = 8 \/ y = 9) as Hys by lia.
  clear Hx Hy.
  repeat (destruct Hxs as [->|Hxs]); try subst x;
    repeat (destruct Hys as [->|Hys]); try subst y; reflexivity.
Qed.

Lemma two_digits_compare a b (c : comparison) :
  0 <= a < 100 -> 0 <= b < 100 ->
  lex ((a / 10) mod 10 ?= (b / 10) mod 10) (lex (a mod 10 ?= b mod 10) c)
  = lex (a ?= b) c.
Proof.
  intros Ha Hb. unfold lex.
  destruct (Z.compare_spec ((a / 10) mod 10) ((b / 10) mod 10));
    destruct (Z.compare_spec (a mod 10) (b mod 10));
    destruct (Z.compare_spec a b); try done;
    exfalso; Z.div_mod_to_equations; lia.
Qed.

Lemma pad2_compare a b s t :
  0 <= a < 100 -> 0 <= b < 100 ->
  String.compare (pad2 a +:+ s) (pad2 b +:+ t)
  = lex (a ?= b) (String.compare s t).
Proof.
  intros Ha Hb. unfold pad2.
  rewrite !append_String, !append_empty_l, !string_compare_cons.
  rewrite !digit_compare. by apply two_digits_compare.
Qed.

Lemma four_digits_compare a b (c : comparison) :
  0 <= a < 10000 -> 0 <= b < 10000 ->
  lex ((a / 1000) mod 10 ?= (b / 1000) mod 10)
    (lex ((a / 100) mod 10 ?= (b / 100) mod 10)
       (lex ((a / 10) mod 10 ?= (b / 10) mod 10)
          (lex (a mod 10 ?= b mod 10) c)))
  = lex (a ?= b) c.
Proof.
  intros Ha Hb.
  assert (forall n, 0 <= n < 10000 ->
            (n / 1000) mod 10 = ((n / 100) / 10) mod 10 /\
            (n / 10) mod 10 = ((n mod 100) / 10) mod 10 /\
            n mod 10 = (n mod 100) mod 10 /\
            0 <= n / 100 < 100 /\ 0 <= n mod 100 < 100) as Hsplit.
  { intros n Hn. Z.div_mod_to_equations. lia. }
  destruct (Hsplit a Ha) as (-> & -> & -> & Ha1 & Ha2).
  destruct (Hsplit b Hb) as (-> & -> & -> & Hb1 & Hb2).
  rewrite (two_digits_compare (a mod 100) (b mod 100)) by done.
  rewrite (two_digits_compare (a / 100) (b / 100)) by done.
  unfold lex.
  destruct (Z.compare_spec (a / 100) (b / 100));
    destruct (Z.compare_spec (a mod 100) (b mod 100));
    destruct (Z.compare_spec a b); try done;
    exfalso; Z.div_mod_to_equations; lia.
Qed.

Lemma pad4_compare a b s t :
  0 <= a < 10000 -> 0 <= b < 10000 ->
  String.compare (pad4 a +:+ s) (pad4 b +:+ t)
  = lex (a ?= b) (String.compare s t).
Proof.
  intros Ha Hb. unfold pad4, pad2.
  rewrite !append_String, !append_empty_l, !string_compare_cons.
  rewrite !digit_compare. by apply four_digits_compare.
Qed.

Lemma month_key_compare t1 t2 :
  valid_timestamp t1 -> valid_timestamp t2 ->
  String.compare (month_key t1) (month_key t2) = month_compare t1 t2.
Proof.
  intros (Hy1 & Hm1 & _) (Hy2 & Hm2 & _). unfold month_key, month_compare.
  rewrite pad4_compare by lia.
  rewrite !append_String, !append_empty_l, string_compare_cons.
  rewrite <- (append_empty_r (pad2 (month t1))).
  rewrite <- (append_empty_r (pad2 (month t2))).
  rewrite pad2_compare by lia. simpl. by rewrite lex_Eq_r.
Qed.

Lemma append_assoc (a b c : string) : (a +:+ b) +:+ c = a +:+ (b +:+ c).
Proof.
  induction a as [|x a IH]; [done|]. by rewrite !append_String, IH.
Qed.

Lemma day_key_compare t1 t2 :
  valid_timestamp t1 -> valid_timestamp t2 ->
  String.compare (day_key t1) (day_key t2) = date_compare t1 t2.
Proof.
  intros (Hy1 & Hm1 & Hd1 & _) (Hy2 & Hm2 & Hd2 & _).
  unfold day_key, month_key, date_compare, month_compare.
  rewrite !append_assoc.
  rewrite pad4_compare by lia.
  rewrite !append_String, !append_empty_l, string_compare_cons.
  rewrite pad2_compare by lia.
  rewrite string_compare_cons.
  rewrite <- (append_empty_r (pad2 (day t1))).
  rewrite <- (append_empty_r (pad2 (day t2))).
  rewrite pad2_compare by lia. simpl. rewrite lex_Eq_r.
  by destruct (year t1 ?= year t2), (month t1 ?= month t2).
Qed.

(** ** Spending over time *)

Lemma keep_fst_zip {A B} (f : A -> bool) (a : list A) (b : list B) :
  keep (f <$> a) (zip a b) = filter (fun row => f row.1 = true) (zip a b).
Proof.
  revert b; induction a as [|x a IH]; intros [|y b]; try done.
  change (zip (x :: a) (y :: b)) with ((x, y) :: zip a b).
  rewrite fmap_cons, filter_cons. simpl. rewrite IH.
  destruct (f x); [by rewrite decide_True|by rewrite decide_False].
Qed.

Lemma keep_last_zip {A B C} (f : C -> bool)
    (a : list A) (b : list B) (c : list C) :
  keep (f <$> c) (zip a (zip b c))
  = filter (fun row => f row.2.2 = true) (zip a (zip b c)).
Proof.
  revert b c; induction a as [|x a IH]; intros [|y b] [|z c]; try done.
  change (zip (x :: a) (zip (y :: b) (z :: c)))
    with ((x, (y, z)) :: zip a (zip b c)).
  rewrite fmap_cons, filter_cons. simpl. rewrite IH.
  destruct (f z); [by rewrite decide_True|by rewrite decide_False].
Qed.

Lemma col_df_exp all_data lo hi g name :
  name <> "period" ->
  col (df_exp all_data lo hi g) name =
  keep (in_range lo hi
          <$> keep (gt0 <$> col all_data "amount") (col all_data "date"))
       (keep (gt0 <$> col all_data "amount") (col all_data name)).
Proof.
  intros Hne. unfold df_exp.
  by rewrite col_setitem_ne, !col_bool_index by done.
Qed.

Lemma df_exp_rows all_data lo hi g :
  zip (col (df_exp all_data lo hi g) "date")
      (zip (col (df_exp all_data lo hi g) "grouped_category")
           (col (df_exp all_data lo hi g) "amount"))
  = spending_in_range all_data lo hi.
Proof.
  rewrite !col_df_exp by done.
  set (spent := gt0 <$> col all_data "amount").
  rewrite <- !(keep_zip (in_range lo hi <$> _)), keep_fst_zip.
  rewrite <- !(keep_zip spent). unfold spent.
  by rewrite keep_last_zip, list_filter_filter.
Qed.

Lemma df_exp_period all_data lo hi g :
  col (df_exp all_data lo hi g) "period"
  = period_of g <$> col (df_exp all_data lo hi g) "date".
Proof.
  unfold df_exp at 1. rewrite col_setitem_eq. f_equal.
  by rewrite col_df_exp, !col_bool_index.
Qed.

Lemma df_exp_dates all_data lo hi g :
  Forall (fun d => exists t, d = VTime t
                             /\ period_of g d = VStr (period_key g t))
         (col (df_exp all_data lo hi g) "date").
Proof.
  rewrite col_df_exp by done. rewrite keep_test_filter.
  apply Forall_forall. intros d [Hd _]%list_elem_of_filter.
  destruct d as [z|s|t|]; try done. exists t. by destruct g.
Qed.

Lemma filter_pair_keys p c (f : value -> value)
    (dates cats amounts : list value) :
  (filter (fun row => row.1 = Some (p, c))
     (zip (zip_with pair_key (f <$> dates) cats) amounts)).*2
  = (filter (fun row => f row.1 = VStr p /\ row.2.1 = VStr c)
       (zip dates (zip cats amounts))).*2.*2.
Proof.
  revert cats amounts; induction dates as [|d dates IH];
    intros [|k cats] [|v amounts]; try done.
  rewrite fmap_cons.
  change (zip (zip_with pair_key (f d :: (f <$> dates)) (k :: cats))
              (v :: amounts))
    with ((pair_key (f d) k, v)
            :: zip (zip_with pair_key (f <$> dates) cats) amounts).
  change (zip (d :: dates) (zip (k :: cats) (v :: amounts)))
    with ((d, (k, v)) :: zip dates (zip cats amounts)).
  rewrite !filter_cons. simpl.
  destruct (decide (f d = VStr p /\ k = VStr c)) as [[-> ->]|Hne].
  - simpl. rewrite decide_True by done. rewrite !fmap_cons. simpl.
    by rewrite IH.
  - rewrite decide_False; [apply IH|].
    destruct (f d), k; simpl; try done. intros [= -> ->]. by apply Hne.
Qed.

Lemma filter_period_keys p (f : value -> value) (dates amounts : list value) :
  (filter (fun row => row.1 = Some p)
     (zip (text_key <$> (f <$> dates)) amounts)).*2
  = (filter (fun row => f row.1 = VStr p) (zip dates amounts)).*2.
Proof.
  rewrite filter_text_keys.
  revert amounts; induction dates as [|d dates IH]; intros [|v amounts];
    try done.
  rewrite fmap_cons.
  change (zip (f d :: (f <$> dates)) (v :: amounts))
    with ((f d, v) :: zip (f <$> dates) amounts).
  change (zip (d :: dates) (v :: amounts)) with ((d, v) :: zip dates amounts).
  rewrite !filter_cons. simpl.
  destruct (decide (f d = VStr p)); rewrite ?fmap_cons; by rewrite IH.
Qed.


(** ** Rows that carry no sign *)

Lemma has_sign_false v :
  has_sign v = false <-> v = VNum 0 \/ forall z, v <> VNum z.
Proof.
  unfold has_sign. destruct v as [z|s|t|]; simpl.
  - rewrite orb_false_iff, Z.ltb_ge, Z.ltb_ge. split.
    + intros [? ?]. left. f_equal. lia.
    + intros [[= ->]|H]; [lia|]. by destruct (H z).
  - split; [right; done|done].
  - split; [right; done|done].
  - split; [right; done|done].
Qed.

(** Dropping rows first and then filtering on a stricter test of the same
    column gives what the stricter test alone gives, also with a filter on
    another column in between. *)
Lemma keep_after_drop {V W X} (weak strict : V -> bool) (other : W -> bool)
    (a : list V) (d : list W) (x : list X) :
  (forall v, strict v = true -> weak v = true) ->
  keep (strict <$> keep (other <$> keep (weak <$> a) d) (keep (weak <$> a) a))
       (keep (other <$> keep (weak <$> a) d) (keep (weak <$> a) x))
  = keep (strict <$> keep (other <$> d) a) (keep (other <$> d) x).
Proof.
  intros Himp. revert d x. induction a as [|v a IH]; intros d x.
  - simpl. by rewrite ?keep_nil.
  - destruct d as [|w d].
    { simpl. destruct (weak v); simpl; by rewrite ?keep_nil. }
    destruct x as [|y x].
    { by rewrite !keep_nil. }
    rewrite !fmap_cons. simpl.
    destruct (weak v) eqn:Hweak; simpl.
    + destruct (other w); simpl; [|apply IH].
      destruct (strict v); simpl; by rewrite IH.
    + destruct (other w); simpl; [|apply IH].
      destruct (strict v) eqn:Hstrict; simpl; [|apply IH].
      apply Himp in Hstrict. congruence.
Qed.

Lemma keep_absorb {V X} (weak strict : V -> bool) (a : list V) (x : list X) :
  (forall v, strict v = true -> weak v = true) ->
  keep (strict <$> keep (weak <$> a) a) (keep (weak <$> a) x)
  = keep (strict <$> a) x.
Proof.
  intros Himp. revert x. induction a as [|v a IH]; intros [|y x]; try done.
  - by rewrite !keep_nil.
  - rewrite !fmap_cons. simpl.
    destruct (weak v) eqn:Hweak; simpl.
    + destruct (strict v); simpl; by rewrite IH.
    + destruct (strict v) eqn:Hstrict; simpl; [|apply IH].
      apply Himp in Hstrict. congruence.
Qed.

Lemma gt0_has_sign v : gt0 v = true -> has_sign v = true.
Proof. unfold has_sign. by intros ->. Qed.

Lemma lt0_has_sign v : lt0 v = true -> has_sign v = true.
Proof. unfold has_sign. intros ->. apply orb_true_r. Qed.

Lemma col_signed_rows all_data name :
  col (signed_rows all_data) name
  = keep (has_sign <$> col all_data "amount") (col all_data name).
Proof. apply col_bool_index. Qed.

Lemma col_month_rows_signed (strict : value -> bool) all_data p name :
  (forall v, strict v = true -> has_sign v = true) ->
  name <> "month" ->
  col (bool_index (month_df (signed_rows all_data) p)
         (strict <$> col (month_df (signed_rows all_data) p) "amount")) name
  = col (bool_index (month_df all_data p)
           (strict <$> col (month_df all_data p) "amount")) name.
Proof.
  intros Himp Hne.
  rewrite !col_bool_index, !col_month_df, !col_signed_rows by done.
  by apply keep_after_drop.
Qed.

Lemma col_df_exp_signed all_data lo hi g name :
  col (df_exp (signed_rows all_data) lo hi g) name
  = col (df_exp all_data lo hi g) name.
Proof.
  assert (forall other, other <> "period" ->
            col (df_exp (signed_rows all_data) lo hi g) other
            = col (df_exp all_data lo hi g) other) as Hother.
  { intros other Hne. rewrite !col_df_exp, !col_signed_rows by done.
    by rewrite !(keep_absorb has_sign gt0) by apply gt0_has_sign. }
  destruct (decide (name = "period")) as [->|Hne]; [|by apply Hother].
  rewrite !df_exp_period. by rewrite Hother.
Qed.

(** The aggregates do not see the rows whose amount is null or zero. *)
Lemma aggregates_ignore_unsigned all_data p lo hi g :
  monthly_summary (signed_rows all_data) p = monthly_summary all_data p /\
  cat_sum (month_df (signed_rows all_data) p) = cat_sum (month_df all_data p) /\
  grouped (df_exp (signed_rows all_data) lo hi g)
    = grouped (df_exp all_data lo hi g) /\
  totals (df_exp (signed_rows all_data) lo hi g)
    = totals (df_exp all_data lo hi g).
Proof.
  split_and!.
  - unfold monthly_summary.
    rewrite (col_month_rows_signed gt0) by (done || apply gt0_has_sign).
    by rewrite (col_month_rows_signed lt0) by (done || apply lt0_has_sign).
  - unfold cat_sum.
    by rewrite !(col_month_rows_signed gt0) by (done || apply gt0_has_sign).
  - unfold grouped. by rewrite !col_df_exp_signed.
  - unfold totals. by rewrite !col_df_exp_signed.
Qed.

(** ** Rows with a null date or a null amount, through the pipeline *)

Lemma elem_of_keep {A} (mask : list bool) (s : list A) i x :
  mask !! i = Some true -> s !! i = Some x -> x ∈ keep mask s.
Proof.
  revert s i; induction mask as [|b mask IH]; intros [|y s] [|i]; simpl;
    try done.
  - intros [= ->] [= ->]. apply elem_of_cons; by left.
  - intros Hm Hs. destruct b; [apply elem_of_cons; right|]; by eapply IH.
Qed.

Lemma col_elem_of df name : name ∈ columns df -> col df name ∈ (cols df).*2.
Proof.
  unfold columns, col, named.
  induction (cols df) as [|[l s] cs IH]; [by intros ?%elem_of_nil|].
  rewrite !fmap_cons, filter_cons; simpl.
  intros [->|Hin]%elem_of_cons.
  - rewrite decide_True by done. rewrite fmap_cons. simpl.
    apply elem_of_cons; by left.
  - destruct (decide (l = name)).
    + rewrite fmap_cons. simpl. apply elem_of_cons; by left.
    + apply elem_of_cons; right. by apply IH.
Qed.

Lemma named_rename_elem_of mapping df l s :
  s ∈ named l (rename mapping df) -> s ∈ (cols df).*2.
Proof.
  unfold named, rename; simpl.
  induction (cols df) as [|[x c] cs IH]; [by intros ?%elem_of_nil|].
  rewrite !fmap_cons, filter_cons; simpl.
  destruct (decide _).
  - rewrite fmap_cons. simpl. intros [->|Hin]%elem_of_cons.
    + apply elem_of_cons; by left.
    + apply elem_of_cons; right. by apply IH.
  - intros Hin. apply elem_of_cons; right. by apply IH.
Qed.

Lemma Forall_in_range_dates lo hi (dates : list value) :
  Forall (fun d => exists t, d = VTime t /\ in_range lo hi d = true)
         (keep (in_range lo hi <$> dates) dates).
Proof.
  rewrite keep_test_filter. apply Forall_forall.
  intros d [Hd _]%list_elem_of_filter.
  destruct d as [z|s|t|]; try done. by exists t.
Qed.

(** Every date shown by the Dashboard's filtered table is a timestamp
    inside the range. *)
Lemma filtered_dates all_data lo hi category :
  Forall (fun d => exists t, d = VTime t /\ in_range lo hi d = true)
         (col (filtered all_data lo hi category) "date").
Proof.
  unfold filtered. destruct (decide (category = "All")).
  - rewrite col_bool_index. apply Forall_in_range_dates.
  - rewrite !col_bool_index. apply Forall_keep, Forall_in_range_dates.
Qed.

Lemma filtered_rows all_data lo hi category name :
  Forall (fun row => exists t, row.1 = VTime t /\ in_range lo hi row.1 = true)
         (zip (col (filtered all_data lo hi category) "date")
              (col (filtered all_data lo hi category) name)).
Proof.
  assert (Forall (fun row : value * value =>
                    exists t, row.1 = VTime t /\ in_range lo hi row.1 = true)
            (zip (keep (in_range lo hi <$> col all_data "date")
                       (col all_data "date"))
                 (keep (in_range lo hi <$> col all_data "date")
                       (col all_data name)))) as Hrows.
  { rewrite <- keep_zip, keep_fst_zip. apply Forall_forall.
    intros [d x] [Hd _]%list_elem_of_filter. simpl in *.
    destruct d as [z|s|t|]; try done. by exists t. }
  unfold filtered. destruct (decide (category = "All")).
  - by rewrite !col_bool_index.
  - rewrite !col_bool_index, <- keep_zip. by apply Forall_keep.
Qed.

Section CollectionProperties.

Variable parse_number : string -> option Z.
Variable parse_date : Series -> value -> option Timestamp.

#[local] Abbreviation loop := (upload_loop parse_number parse_date).
#[local] Abbreviation pipeline := (ingest parse_number parse_date).
#[local] Abbreviation bank_normalizers :=
  (normalizers parse_number parse_date).
#[local] Abbreviation read_number := (to_numeric_elt parse_number).
#[local] Abbreviation read_dates := (to_datetime parse_date).

(** A row of the kept frames that is no payment row is a row of the
    collection, whatever its other cells hold. *)
Lemma kept_row_in_collection files all_data ws name i x d :
  pipeline files = Ok (all_data, ws) ->
  name ∈ collection_columns ->
  stacked (dfs (loop files)) name !! i = Some x ->
  stacked (dfs (loop files)) "description" !! i = Some d ->
  is_payment_row d = false ->
  (x, d) ∈ zip (col all_data name) (col all_data "description").
Proof.
  intros [_ Hcol]%ingest_Ok Hname Hx Hd Hpay.
  rewrite (Hcol name Hname).
  rewrite (Hcol "description") by (by apply (bool_decide_unpack _)).
  rewrite <- keep_zip. apply (elem_of_keep _ _ i).
  - unfold payment_mask. rewrite list_lookup_fmap.
    unfold Series in *. rewrite Hd. simpl. by rewrite Hpay.
  - apply lookup_zip_with_Some. by exists x, d.
Qed.

(** Both normalizers read the date column of the upload through
    [pd.to_datetime], cell by cell and without dropping a row. *)
Lemma normalized_dates bank normalize df out :
  bank_normalizers !! bank = Some normalize ->
  normalize df = Ok out ->
  nrows out = nrows df /\
  exists raw_dates,
    raw_dates ∈ (cols df).*2 /\
    col out "date" = read_dates raw_dates /\
    forall i v, raw_dates !! i = Some v ->
                parse_date raw_dates v = None ->
                col out "date" !! i = Some VNull.
Proof.
  intros Hbank Hnorm.
  assert (nrows out = nrows df /\
          exists raw_dates, raw_dates ∈ (cols df).*2 /\
                            col out "date" = read_dates raw_dates)
    as (Hrows & raw & Hraw & Hdate).
  { apply normalizers_lookup in Hbank as [[_ ->]|[_ ->]].
    - apply normalize_chase_Ok in Hnorm
        as (mapping & header & _ & _ & Hmap & Hkeys & Hrows & Hdate & _).
      split; [done|]. exists (col df header). split.
      + apply col_elem_of. by apply (all_keys_in_elem_of mapping df _ "date").
      + by apply named_col.
    - apply normalize_capone_Ok in Hnorm
        as (date & debit & credit & Hd & _ & _ & Hrows & Hdate & _).
      split; [done|]. exists date. split; [|done].
      apply (named_rename_elem_of CAPONE_MAP df "date").
      rewrite Hd. apply elem_of_cons; by left. }
  split; [done|]. exists raw. split_and!; [done|done|].
  intros i v Hv Hparse. rewrite Hdate. unfold to_datetime, Series in *.
  rewrite list_lookup_fmap, Hv. simpl. by rewrite Hparse.
Qed.



End CollectionProperties.

(** ** A Capital One export without a Credit column *)

(** C1 (the code departs from it). On a Capital One export that has no
    Credit column, [df.get('credit', 0)] is the number 0, which
    [pd.to_numeric] hands back as it is, and [.fillna(0)] on a number
    raises: the file is skipped with a warning instead of being
    normalized with credit taken as zero. *)
Theorem capone_without_credit_raises :
  detect_bank capone_debit_only_csv = "capone" /\
  normalize_capone simple_number simple_date capone_debit_only_csv
    = Raise (AttributeError "'int' object has no attribute 'fillna'") /\
  upload_loop simple_number simple_date
    [mkUpload "debit_only.csv" capone_debit_only_csv]
    = mkLoopState []
        ["Error normalizing debit_only.csv: "
           +:+ "'int' object has no attribute 'fillna'"].
Proof. split_and!; vm_compute; reflexivity. Qed.

(** ** The properties on concrete uploads *)

Lemma grouped_category_total_witness :
  match ingest simple_number simple_date example_files with
  | Ok (all_data, _) =>
      Forall (fun v => exists g, v = VStr g)
             (col all_data "grouped_category")
  | Raise _ => False
  end.
Proof.
  destruct (ingest simple_number simple_date example_files)
    as [[all_data ws]|e] eqn:Hrun.
  - apply (grouped_category_total simple_number simple_date
             example_files all_data ws VNull Hrun).
  - vm_compute in Hrun. discriminate Hrun.
Defined.


Lemma chase_mapping_failure_isolated_witness :
  warnings (upload_loop simple_number simple_date example_files)
  = ["Error normalizing other.csv: No valid Chase mapping found"].
Proof.
  assert (detect_bank amount_only_csv = "chase") as Hbank
    by (vm_compute; reflexivity).
  assert (Forall (fun mapping => all_keys_in mapping amount_only_csv = false)
                 CHASE_MAPS) as Hnone
    by (repeat constructor; vm_compute; reflexivity).
  destruct (chase_mapping_failure_isolated simple_number simple_date
              [mkUpload "chase.csv" chase_csv]
              (mkUpload "other.csv" amount_only_csv)
              [mkUpload "capone.csv" capone_csv] Hbank Hnone)
    as (_ & _ & _ & Hwarn & _).
  exact Hwarn.
Defined.

(** C3, as stated, fails: the error of a Chase file that satisfies no
    mapping names none of the headers it lacks, under either mapping. *)
Lemma chase_mapping_error_names_no_column :
  ~ exists e,
      normalize_chase simple_number simple_date amount_only_csv = Raise e /\
      exists mapping header,
        mapping ∈ CHASE_MAPS /\
        header ∈ missing_columns mapping amount_only_csv /\
        contains (str_exn e) header.
Proof.
  intros (e & He & mapping & header & Hm & Hh & Hc).
  vm_compute in He. injection He as <-.
  apply is_substring_spec in Hc.
  unfold CHASE_MAPS in Hm. rewrite !elem_of_cons in Hm.
  destruct Hm as [->|[->|[]%elem_of_nil]];
    (match type of Hh with
     | _ ∈ ?l => let l' := eval vm_compute in l in change (header ∈ l') in Hh
     end);
    rewrite ?elem_of_cons in Hh;
    repeat (destruct Hh as [->|Hh]; [vm_compute in Hc; discriminate Hc|]);
    by apply elem_of_nil in Hh.
Qed.





